(** * Toyoko voice analysis: signal metrics, trait evaluation and rule engine

    A shallow embedding of the deterministic core of the application:
    - [src/src/speech_analyzer.py]: trait classification against the ideal
      ranges and the feedback composer;
    - [src/run_app.py]: the restricted rule-expression evaluator, the
      rule-based feedback renderer, the normalisation used for saving, the
      range auto-detection and signal metrics of the analysis path, and the
      framing and band ratios of the spectral analysis; the hot-reloading
      caches of the templates and of the episodes, the choice of the
      recommended episode, the comments under the graphs, the conversion to
      16-bit samples, and the wave and spectrogram plots;
    - [src/src/speech_analyzer.py]: the placeholder extractor, the data of
      the charts and [analyze_speech];
    - [src/plugins/analysis_custom.py]: the sample plug-in.

    Python exceptions are explicit: a computation that may raise returns a
    value of [result A]. *)

From Stdlib Require Import List String Ascii Bool Arith ZArith Lia.
From Stdlib Require Import QArith Qround Reals Psatz.
Import ListNotations.

Set Implicit Arguments.
Set Warnings "-register-all,-abstract-large-number".

(** ** Python exceptions and the error monad *)

Module Py.

(** The exception classes that occur in the modelled code.  The last two are
    the ones that derive from [BaseException] only, so that [except Exception]
    does not catch them. *)
Inductive exc : Type :=
| KeyError | IndexError | ZeroDivisionError | NameError | TypeError
| ValueError | SyntaxError | OverflowError | RecursionError | MemoryError
| KeyboardInterrupt | SystemExit.

Definition is_Exception (e : exc) : bool :=
  match e with
  | KeyboardInterrupt | SystemExit => false
  | _ => true
  end.

Definition result (A : Type) : Type := (exc + A)%type.

Definition ret {A} (a : A) : result A := inr a.
Definition raise {A} (e : exc) : result A := inl e.

Definition bind {A B} (m : result A) (k : A -> result B) : result B :=
  match m with
  | inl e => inl e
  | inr a => k a
  end.

(** A computation that, if it raises, raises an [Exception]. *)
Definition raises_Exception_only {A} (r : result A) : Prop :=
  forall ex, r = inl ex -> is_Exception ex = true.

(** A Python [dict] with string keys, in insertion order. *)
Definition dict (V : Type) : Type := list (string * V).

Fixpoint get {V} (d : dict V) (k : string) : option V :=
  match d with
  | [] => None
  | (k', v) :: d' => if String.eqb k' k then Some v else get d' k
  end.

(** [d[k]]: raises [KeyError] when the key is absent. *)
Definition getitem {V} (d : dict V) (k : string) : result V :=
  match get d k with
  | Some v => ret v
  | None => raise KeyError
  end.

End Py.

Import Py.

Declare Scope py_scope.
Delimit Scope py_scope with py.
Notation "x <- m ;; k" := (Py.bind m (fun x => k))
  (at level 61, m at next level, right associativity) : py_scope.

(** Rational comparisons as booleans. *)
Definition Qltb (a b : Q) : bool := negb (Qle_bool b a).
Definition Qgtb (a b : Q) : bool := Qltb b a.
Definition Qgeb (a b : Q) : bool := Qle_bool b a.

(** ** Trait evaluation and feedback composer ([speech_analyzer.py]) *)

Module SpeechAnalyzer.

Local Open Scope string_scope.
Local Open Scope py_scope.

(** One entry of [self.voice_metrics]; feature values are Python floats,
    modelled by the rationals they denote. *)
Record metric_info : Type := {
  description : string;
  ideal_range : Q * Q;
  feedback : dict string
}.

Definition k_speed : string := "速さ".
Definition k_intonation : string := "抑揚".
Definition k_loudness : string := "音量".
Definition k_clarity : string := "明瞭さ".
Definition k_pause : string := "間".

(** [SpeechAnalyzer.__init__]. *)
Definition voice_metrics : dict metric_info := [
  (k_speed, {|
     description := "話すスピード（1分あたりの単語数）";
     ideal_range := (120, 150)%Q;
     feedback := [
       ("too_slow", "もう少し速く話すと、聞き手の注意を維持しやすくなります。");
       ("too_fast", "少しゆっくり話すと、聞き手が内容を理解しやすくなります。");
       ("good", "話すスピードは適切です。聞き手が内容を理解しやすい速さです。") ] |});
  (k_intonation, {|
     description := "声のピッチ（高低）の変化";
     ideal_range := (0.5, 1.5)%Q;
     feedback := [
       ("too_flat", "もう少し抑揚をつけると、話が生き生きとして聞き手の興味を引きます。");
       ("too_varied", "抑揚が大きすぎると落ち着きがない印象を与えることがあります。少し抑えめにすると良いでしょう。");
       ("good", "抑揚のバランスが良く、聞き手の興味を引く話し方です。") ] |});
  (k_loudness, {|
     description := "声の大きさ";
     ideal_range := (60, 75)%Q;
     feedback := [
       ("too_quiet", "もう少し声を大きくすると、自信があり説得力のある印象になります。");
       ("too_loud", "声が大きすぎると威圧感を与えることがあります。少し抑えめにすると良いでしょう。");
       ("good", "声の大きさは適切です。聞き取りやすく、自信のある印象を与えています。") ] |});
  (k_clarity, {|
     description := "発音の明瞭さ";
     ideal_range := (0.7, 1.0)%Q;
     feedback := [
       ("unclear", "発音をもう少し明確にすると、聞き手が内容を理解しやすくなります。");
       ("good", "発音が明確で、聞き手が内容を理解しやすい話し方です。") ] |});
  (k_pause, {|
     description := "話の間の取り方";
     ideal_range := (0.5, 2.0)%Q;
     feedback := [
       ("too_few", "重要なポイントで間を取ると、聞き手が内容を消化する時間ができ、印象に残りやすくなります。");
       ("too_many", "間が多すぎると話の流れが途切れる印象を与えることがあります。");
       ("good", "間の取り方が適切で、聞き手が内容を理解しやすい話し方です。") ] |})
].

(** [self.voice_metrics[name]["ideal_range"]]. *)
Definition range_of (self : dict metric_info) (name : string) : result (Q * Q) :=
  m <- getitem self name ;; ret (ideal_range m).

(** [_evaluate_speech_features]: the five traits are classified one after the
    other, each against its own range. *)
Definition _evaluate_speech_features (self : dict metric_info)
    (features : dict Q) : result (dict string) :=
  let evaluation : dict string := [] in
  (* speed *)
  speed <- getitem features k_speed ;;
  speed_range <- range_of self k_speed ;;
  let evaluation := (evaluation ++
    [(k_speed, if Qltb speed (fst speed_range) then "too_slow"
               else if Qgtb speed (snd speed_range) then "too_fast"
               else "good")])%list in
  (* intonation *)
  pitch_variation <- getitem features k_intonation ;;
  pitch_range <- range_of self k_intonation ;;
  let evaluation := (evaluation ++
    [(k_intonation, if Qltb pitch_variation (fst pitch_range) then "too_flat"
                    else if Qgtb pitch_variation (snd pitch_range) then "too_varied"
                    else "good")])%list in
  (* loudness *)
  volume <- getitem features k_loudness ;;
  volume_range <- range_of self k_loudness ;;
  let evaluation := (evaluation ++
    [(k_loudness, if Qltb volume (fst volume_range) then "too_quiet"
                  else if Qgtb volume (snd volume_range) then "too_loud"
                  else "good")])%list in
  (* clarity: one-sided *)
  clarity <- getitem features k_clarity ;;
  clarity_range <- range_of self k_clarity ;;
  let evaluation := (evaluation ++
    [(k_clarity, if Qltb clarity (fst clarity_range) then "unclear"
                 else "good")])%list in
  (* pauses *)
  pauses <- getitem features k_pause ;;
  pause_range <- range_of self k_pause ;;
  let evaluation := (evaluation ++
    [(k_pause, if Qltb pauses (fst pause_range) then "too_few"
               else if Qgtb pauses (snd pause_range) then "too_many"
               else "good")])%list in
  ret evaluation.

(** The result of [_generate_feedback]. *)
Record feedback_t : Type := {
  strengths : list string;      (* "良い点" *)
  improvements : list string;   (* "改善点" *)
  overall : string;             (* "総合評価" *)
  advice : list string          (* "アドバイス" *)
}.

Definition tier_best : string :=
  "素晴らしい話し方です！聞き手に強い印象を与えることができるでしょう。".
Definition tier_second : string :=
  "良い話し方です。いくつかの点を改善すると、さらに効果的になります。".
Definition tier_third : string :=
  "基本的な話し方はできています。改善点に取り組むと、より効果的になります。".
Definition tier_worst : string :=
  "話し方に改善の余地があります。アドバイスを参考に練習を続けましょう。".

(** The loop over [evaluation.items()]: every item is appended to one of the
    two lists; the sentence is looked up first, and a missing trait or
    category raises [KeyError]. *)
Fixpoint collect_points (self : dict metric_info) (items : dict string)
    (good bad : list string) : result (list string * list string) :=
  match items with
  | [] => ret (good, bad)
  | (metric, res) :: rest =>
      info <- getitem self metric ;;
      text <- getitem (feedback info) res ;;
      let line := metric ++ ": " ++ text in
      if String.eqb res "good"
      then collect_points self rest (good ++ [line])%list bad
      else collect_points self rest good (bad ++ [line])%list
  end.

(** [good_points / total_points]: true division of two integers. *)
Definition score_of (good_points total_points : nat) : result Q :=
  if Nat.eqb total_points 0 then raise ZeroDivisionError
  else ret (inject_Z (Z.of_nat good_points) / inject_Z (Z.of_nat total_points))%Q.

Definition overall_of (score : Q) : string :=
  if Qgeb score 0.8 then tier_best
  else if Qgeb score 0.6 then tier_second
  else if Qgeb score 0.4 then tier_third
  else tier_worst.

(** ["k" in evaluation and evaluation["k"] != "good"]. *)
Definition needs_advice (evaluation : dict string) (k : string) : bool :=
  match get evaluation k with
  | Some r => negb (String.eqb r "good")
  | None => false
  end.

Definition advice_for (evaluation : dict string) : list string :=
  (if needs_advice evaluation k_speed
   then ["話すスピードを意識して練習してみましょう。メトロノームを使うと効果的です。"] else []) ++
  (if needs_advice evaluation k_intonation
   then ["感情を込めて話す練習をしましょう。詩や物語の朗読が効果的です。"] else []) ++
  (if needs_advice evaluation k_loudness
   then ["適切な声の大きさを意識しましょう。録音して確認すると良いでしょう。"] else []) ++
  (if needs_advice evaluation k_clarity
   then ["発音練習を行いましょう。早口言葉や滑舌トレーニングが効果的です。"] else []) ++
  (if needs_advice evaluation k_pause
   then ["重要なポイントで意識的に間を取る練習をしましょう。"] else []) ++
  ["継続的な練習が話し方の上達につながります。自分の声を録音して聞くことで、改善点が見えてきます。"].

(** The score computed inside [_generate_feedback] (a local variable there). *)
Definition aggregate_score (self : dict metric_info) (evaluation : dict string)
    : result Q :=
  p <- collect_points self evaluation [] [] ;;
  score_of (List.length (fst p)) (List.length evaluation).

(** [_generate_feedback]. *)
Definition _generate_feedback (self : dict metric_info) (evaluation : dict string)
    : result feedback_t :=
  p <- collect_points self evaluation [] [] ;;
  let good_points := List.length (fst p) in
  let total_points := List.length evaluation in
  score <- score_of good_points total_points ;;
  ret {| strengths := fst p;
         improvements := snd p;
         overall := overall_of score;
         advice := advice_for evaluation |}.

(** An evaluation entry is renderable when its trait is configured and its
    category has a sentence in that trait's feedback table. *)
Definition renderable (self : dict metric_info) (item : string * string) : Prop :=
  exists info text,
    get self (fst item) = Some info /\ get (feedback info) (snd item) = Some text.

(** The category of an entry is ["good"]. *)
Definition is_good (item : string * string) : bool := String.eqb (snd item) "good".

(** Number of traits whose category is ["good"]. *)
Definition count_good (evaluation : dict string) : nat :=
  List.length (filter is_good evaluation).

(** The line written for an entry: ["{metric}: {sentence}"]. *)
Definition line_of (self : dict metric_info) (item : string * string) : string :=
  match get self (fst item) with
  | Some info =>
      match get (feedback info) (snd item) with
      | Some text => fst item ++ ": " ++ text
      | None => ""
      end
  | None => ""
  end.

(** An evaluation with four good traits out of five. *)
Definition four_of_five : dict string :=
  [(k_speed, "good"); (k_intonation, "too_flat"); (k_loudness, "good");
   (k_clarity, "good"); (k_pause, "good")]%string.

End SpeechAnalyzer.

(** ** The rule engine ([run_app.py]) *)

(** *** Python's [ast] node classes, as far as expressions need them *)

Module Ast.

Inductive expr_context : Type := Load | Store | Del.
Inductive boolop : Type := And | Or.
Inductive operator : Type :=
| Add | Sub | Mult | MatMult | Div | Mod | Pow
| LShift | RShift | BitOr | BitXor | BitAnd | FloorDiv.
Inductive unaryop : Type := Invert | Not | UAdd | USub.
Inductive cmpop : Type :=
| Eq | NotEq | Lt | LtE | Gt | GtE | Is | IsNot | In | NotIn.

(** Expression forms with no role in the evaluator; each keeps its
    sub-expressions so that the validation pass can walk them. *)
Inductive other_form : Type :=
| NamedExpr | Lambda | Dict | Set_ | ListComp | SetComp | DictComp
| GeneratorExp | Await | Yield | YieldFrom | FormattedValue | JoinedStr
| Starred | Slice.

(** The class of a node, the value of [type(node)]. *)
Inductive node_class : Type :=
| C_Expression
| C_BoolOp | C_BinOp | C_UnaryOp | C_Compare | C_Name | C_Constant
| C_Call | C_Attribute | C_Subscript | C_IfExp | C_List | C_Tuple
| C_other (f : other_form)
| C_ctx (c : expr_context)
| C_boolop (o : boolop)
| C_operator (o : operator)
| C_unaryop (o : unaryop)
| C_cmpop (o : cmpop).

(** An untyped view of a tree: what [type] and [ast.iter_child_nodes] show. *)
Inductive node : Type :=
| Node (cls : node_class) (children : list node).

Section Expr.

(** [value] is the type of Python objects; a [Constant] node carries one. *)
Variable value : Type.

Inductive expr : Type :=
| BoolOp (op : boolop) (values : list expr)
| BinOp (left : expr) (op : operator) (right : expr)
| UnaryOp (op : unaryop) (operand : expr)
| Compare (left : expr) (ops : list cmpop) (comparators : list expr)
| Name (id : string) (ctx : expr_context)
| Constant (v : value)
| Call (func : expr) (args : list expr)
| Attribute (obj : expr) (attr : string) (ctx : expr_context)
| Subscript (obj : expr) (index : expr) (ctx : expr_context)
| IfExp (test : expr) (body : expr) (orelse : expr)
| List_ (elts : list expr) (ctx : expr_context)
| Tuple (elts : list expr) (ctx : expr_context)
| Other (f : other_form) (parts : list expr).

Definition leaf (c : node_class) : node := Node c [].

(** [ast.iter_child_nodes], in field order, under the class of the node. *)
Fixpoint node_of (e : expr) : node :=
  match e with
  | BoolOp op values =>
      Node C_BoolOp (leaf (C_boolop op) :: map node_of values)
  | BinOp l op r =>
      Node C_BinOp [node_of l; leaf (C_operator op); node_of r]
  | UnaryOp op x =>
      Node C_UnaryOp [leaf (C_unaryop op); node_of x]
  | Compare l ops cs =>
      Node C_Compare
        (node_of l :: map (fun o => leaf (C_cmpop o)) ops ++ map node_of cs)
  | Name _ ctx => Node C_Name [leaf (C_ctx ctx)]
  | Constant _ => Node C_Constant []
  | Call f args => Node C_Call (node_of f :: map node_of args)
  | Attribute x _ ctx => Node C_Attribute [node_of x; leaf (C_ctx ctx)]
  | Subscript x i ctx =>
      Node C_Subscript [node_of x; node_of i; leaf (C_ctx ctx)]
  | IfExp t b o => Node C_IfExp [node_of t; node_of b; node_of o]
  | List_ elts ctx => Node C_List (map node_of elts ++ [leaf (C_ctx ctx)])
  | Tuple elts ctx => Node C_Tuple (map node_of elts ++ [leaf (C_ctx ctx)])
  | Other f parts => Node (C_other f) (map node_of parts)
  end.

(** The tree that [ast.parse(_, mode="eval")] returns: an [Expression] node
    around the parsed expression. *)
Definition node_of_tree (body : expr) : node :=
  Node C_Expression [node_of body].

End Expr.

Arguments Name {value} id ctx.

(** Every class that occurs somewhere in a tree. *)
Fixpoint classes (n : node) : list node_class :=
  match n with
  | Node c children => c :: flat_map classes children
  end.

End Ast.

Module RuleEngine.

Import Ast.
Local Open Scope string_scope.
Local Open Scope py_scope.

(** [_ALLOWED_NODES]. *)
Definition _ALLOWED_NODES (c : node_class) : bool :=
  match c with
  | C_Expression | C_BoolOp | C_BinOp | C_UnaryOp | C_Compare => true
  | C_Name | C_ctx Load | C_Constant | C_boolop And | C_boolop Or => true
  | C_cmpop Gt | C_cmpop GtE | C_cmpop Lt | C_cmpop LtE
  | C_cmpop Eq | C_cmpop NotEq => true
  | C_operator Add | C_operator Sub | C_operator Mult
  | C_operator Div | C_operator Mod | C_operator Pow => true
  | C_unaryop USub | C_unaryop UAdd => true
  | _ => false
  end.

(** The nested function [_check] of [_safe_eval_expr]: raises [ValueError] at
    the first node, in pre-order, whose class is not allowed. *)
Fixpoint _check (n : node) : result unit :=
  match n with
  | Node c children =>
      if _ALLOWED_NODES c
      then (fix each (l : list node) : result unit :=
              match l with
              | [] => ret tt
              | child :: l' => _ <- _check child ;; each l'
              end) children
      else raise ValueError
  end.

(** What the modelled code takes from CPython: the parser, and the object
    protocol behind the operators of an expression.  [ast_parse] gives the
    body of the parsed [Expression].  The operator functions are consulted
    for the operators of the allow-list only; any other construct is handed
    as a whole to [py_eval_rest]. *)
Class CPython (value : Type) : Type := {
  ast_parse : string -> result (expr value);
  py_binop : operator -> value -> value -> result value;
  py_unaryop : unaryop -> value -> result value;
  py_compare : cmpop -> value -> value -> result value;
  py_bool : value -> result bool;
  py_empty_dict : value;
  py_eval_rest : dict value -> dict value -> expr value -> result value
}.

(** The parser and the operators raise exceptions derived from [Exception]
    ([SyntaxError], [ValueError], [TypeError], [ZeroDivisionError], ...). *)
Record CPythonLaws {value} (P : CPython value) : Prop := {
  ast_parse_exc : forall s e, ast_parse s = inl e -> is_Exception e = true;
  py_binop_exc : forall op a b e, py_binop op a b = inl e -> is_Exception e = true;
  py_unaryop_exc : forall op a e, py_unaryop op a = inl e -> is_Exception e = true;
  py_compare_exc : forall op a b e, py_compare op a b = inl e -> is_Exception e = true;
  py_bool_exc : forall a e, py_bool a = inl e -> is_Exception e = true
}.

(** [P] with another treatment of the constructs outside the allow-list. *)
Definition with_rest {value} (P : CPython value)
    (rest : dict value -> dict value -> expr value -> result value)
    : CPython value := {|
  ast_parse := @ast_parse _ P;
  py_binop := @py_binop _ P;
  py_unaryop := @py_unaryop _ P;
  py_compare := @py_compare _ P;
  py_bool := @py_bool _ P;
  py_empty_dict := @py_empty_dict _ P;
  py_eval_rest := rest
|}.

Section Eval.

Context {value : Type} {P : CPython value}.

(** [LOAD_NAME]: the locals, then the globals, then the builtins of the
    frame, which are the mapping bound to ["__builtins__"] in the globals. *)
Definition load_name (globals locals builtins : dict value) (id : string)
    : result value :=
  match get locals id with
  | Some v => ret v
  | None =>
      match get globals id with
      | Some v => ret v
      | None =>
          match get builtins id with
          | Some v => ret v
          | None => raise NameError
          end
      end
  end.

(** The operands of [a and b and ...] / [a or b or ...], left to right: the
    first operand that decides the result is the result, else the last one.
    [ev] evaluates an operand. *)
Fixpoint bool_chain (ev : expr value -> result value) (op : boolop)
    (l : list (expr value)) : result value :=
  match l with
  | [] => raise ValueError
  | [x] => ev x
  | x :: l' =>
      v <- ev x ;;
      t <- py_bool v ;;
      match op with
      | And => if t then bool_chain ev op l' else ret v
      | Or => if t then ret v else bool_chain ev op l'
      end
  end.

(** The comparators of [a < b < ...], left to right, [a] being the value of
    the operand before: the chain stops at the first comparison that is not
    true. *)
Fixpoint compare_chain (ev : expr value -> result value)
    (cs : list (expr value)) (a : value) (ops : list cmpop) : result value :=
  match cs, ops with
  | c :: cs', o :: ops' =>
      b <- ev c ;;
      r <- py_compare o a b ;;
      match ops' with
      | [] => ret r
      | _ => t <- py_bool r ;; if t then compare_chain ev cs' b ops' else ret r
      end
  | _, _ => raise ValueError
  end.

(** Evaluation of a compiled expression.  [builtins] is the content of
    [globals["__builtins__"]]. *)
Fixpoint eval_expr (globals locals builtins : dict value) (e : expr value)
    {struct e} : result value :=
  let ev := eval_expr globals locals builtins in
  match e with
  | Constant v => ret v
  | Name id Load => load_name globals locals builtins id
  | UnaryOp op x =>
      if _ALLOWED_NODES (C_unaryop op)
      then v <- ev x ;; py_unaryop op v
      else py_eval_rest globals locals e
  | BinOp l op r =>
      if _ALLOWED_NODES (C_operator op)
      then a <- ev l ;; b <- ev r ;; py_binop op a b
      else py_eval_rest globals locals e
  | BoolOp op values =>
      (* [compile] refuses a BoolOp with fewer than two operands *)
      match values with
      | [] | [_] => raise ValueError
      | _ => bool_chain ev op values
      end
  | Compare l ops cs =>
      if forallb (fun o => _ALLOWED_NODES (C_cmpop o)) ops
      then
        (* [compile] refuses an empty or unbalanced comparison *)
        if negb (Nat.eqb (List.length ops) (List.length cs))
           || Nat.eqb (List.length ops) 0
        then raise ValueError
        else a <- ev l ;; compare_chain ev cs a ops
      else py_eval_rest globals locals e
  | _ => py_eval_rest globals locals e
  end.

(** [try: ... except Exception: return False]. *)
Definition except_Exception_False (body : result bool) : result bool :=
  match body with
  | inr b => ret b
  | inl e => if is_Exception e then ret false else raise e
  end.

(** The globals passed to [eval]: [{"__builtins__": {}}]. *)
Definition eval_globals : dict value := [("__builtins__", py_empty_dict)].

(** [_safe_eval_expr]. *)
Definition _safe_eval_expr (expr : string) (env : dict value) : result bool :=
  match ast_parse expr with
  | inl e => if is_Exception e then ret false else raise e
  | inr tree =>
      except_Exception_False
        (_ <- _check (node_of_tree tree) ;;
         v <- eval_expr eval_globals env [] tree ;;
         py_bool v)
  end.

(** The body of the [try] of [_safe_eval_expr], on a parsed tree. *)
Definition checked_eval (tree : expr value) (env : dict value) : result bool :=
  Py.bind (_check (node_of_tree tree))
    (fun _ => Py.bind (eval_expr eval_globals env [] tree) py_bool).

End Eval.

End RuleEngine.

(** *** Rule-based feedback *)

Module Templates.

Import Ast RuleEngine.
Local Open Scope string_scope.
Local Open Scope py_scope.

(** The [text] of a rule: one string, or a list to choose from. *)
Inductive rule_text : Type :=
| Text (s : string)
| Choices (l : list string).

(** A rule, with the defaults of [rule.get("if", "")] and
    [rule.get("text", "")] for an absent field. *)
Record rule : Type := {
  rule_if : string;
  rule_says : rule_text
}.

Record section_t : Type := {
  sec_heading : option string;     (* [None]: no "heading" key *)
  sec_rules : list rule
}.

(** The loaded template: [None] when nothing is loaded, and [sections] is
    [None] when the document has no "sections" key. *)
Record template_data : Type := {
  sections : option (list section_t)
}.

Definition nl : string := String (ascii_of_nat 10) EmptyString.

Definition default_heading : string :=
  "トヨコの飛び蹴りフィードバック（テンプレート）".

(** [str.strip()], for the ASCII white space characters. *)
Definition is_space (c : ascii) : bool :=
  let n := nat_of_ascii c in
  ((9 <=? n)%nat && (n <=? 13)%nat) || ((28 <=? n)%nat && (n <=? 32)%nat).

Fixpoint lstrip (s : string) : string :=
  match s with
  | String c s' => if is_space c then lstrip s' else s
  | EmptyString => EmptyString
  end.

Fixpoint rstrip (s : string) : string :=
  match s with
  | EmptyString => EmptyString
  | String c s' =>
      match rstrip s' with
      | EmptyString => if is_space c then EmptyString else String c EmptyString
      | r => String c r
      end
  end.

Definition strip (s : string) : string := rstrip (lstrip s).

(** [not text]. *)
Definition text_is_empty (t : rule_text) : bool :=
  match t with
  | Text s => String.eqb s ""
  | Choices l => match l with [] => true | _ => false end
  end.

(** [random.choice(seq)], given the random index drawn for it. *)
Definition random_choice (draw : nat) (seq : list string) : result string :=
  match seq with
  | [] => raise IndexError
  | _ => ret (nth (draw mod List.length seq)%nat seq "")
  end.

Section Render.

Context {value : Type} {P : CPython value}.

(** The generator behind [random.choice]: [rand k] is the [k]-th draw. *)
Variable rand : nat -> nat.

(** The loop over the rules of one section.  [k] counts the draws made so
    far; the result is the list [lines] and the new count. *)
Fixpoint render_rules (env : dict value) (rules : list rule) (k : nat)
    (lines : list string) : result (list string * nat) :=
  match rules with
  | [] => ret (lines, k)
  | r :: rest =>
      let cond := strip (rule_if r) in
      let text := rule_says r in
      if String.eqb cond "" || text_is_empty text
      then render_rules env rest k lines
      else
        fired <- _safe_eval_expr cond env ;;
        if fired : bool
        then
          match text with
          | Choices l =>
              selected_text <- random_choice (rand k) l ;;
              render_rules env rest (S k)
                (lines ++ [("- " ++ selected_text)%string])%list
          | Text s =>
              render_rules env rest k (lines ++ [("- " ++ s)%string])%list
          end
        else render_rules env rest k lines
  end.

(** The loop over the sections: a section is kept, with its heading and
    lines, when [lines] is not empty. *)
Fixpoint render_sections (env : dict value) (secs : list section_t) (k : nat)
    (kept : list (string * list string))
    : result (list (string * list string)) :=
  match secs with
  | [] => ret kept
  | sec :: rest =>
      let heading :=
        match sec_heading sec with Some h => h | None => default_heading end in
      r <- render_rules env (sec_rules sec) k [] ;;
      let (lines, k') := r : list string * nat in
      match lines with
      | [] => render_sections env rest k' kept
      | _ => render_sections env rest k' (kept ++ [(heading, lines)])%list
      end
  end.

(** A rule fires: it has a condition and a text, and the condition holds. *)
Definition rule_fires (env : dict value) (r : rule) : bool :=
  negb (String.eqb (strip (rule_if r)) "")
  && negb (text_is_empty (rule_says r))
  && match _safe_eval_expr (strip (rule_if r)) env with
     | inr true => true
     | _ => false
     end.

Definition heading_of (sec : section_t) : string :=
  match sec_heading sec with Some h => h | None => default_heading end.

(** [line] is the bullet written for rule [r]: its text, or one entry of its
    list. *)
Definition line_from (line : string) (r : rule) : Prop :=
  match rule_says r with
  | Text s => line = "- " ++ s
  | Choices l => exists t, List.In t l /\ line = "- " ++ t
  end.

(** [part] is what section [sec] contributes: its heading and one line for
    each of its firing rules, in order. *)
Definition part_from (env : dict value) (part : string * list string)
    (sec : section_t) : Prop :=
  fst part = heading_of sec /\
  Forall2 line_from (snd part) (filter (rule_fires env) (sec_rules sec)).

(** The text appended to [parts] for a kept section. *)
Definition format_part (part : string * list string) : string :=
  nl ++ "---" ++ nl ++ nl ++ "## " ++ fst part ++ nl
     ++ String.concat nl (snd part).

(** [render_rule_based_feedback], on the template that
    [load_templates_if_changed] returned. *)
Definition render_rule_based_feedback (data : option template_data)
    (metrics : dict value) : result string :=
  match data with
  | None => ret ""
  | Some d =>
      match sections d with
      | None => ret ""
      | Some secs =>
          let env := metrics in
          parts <- render_sections env secs 0 [] ;;
          ret (String.concat "" (map format_part parts))
      end
  end.

End Render.

End Templates.

(** *** A concrete object model: rational numbers *)

Module RationalObjects.

Import Ast RuleEngine.
Local Open Scope Q_scope.

(** Numbers (Python [int] and [float], by the rational they denote), the
    Booleans, [None], and the empty mapping bound to ["__builtins__"]. *)
Inductive value : Type :=
| VNum (q : Q)
| VBool (b : bool)
| VNone
| VEmptyDict.

Definition num_of (v : value) : option Q :=
  match v with
  | VNum q => Some q
  | VBool b => Some (if b then 1 else 0)
  | _ => None
  end.

(** The exponent as an integer, when it is one. *)
Definition integral (q : Q) : option Z :=
  let r := Qred q in
  if Pos.eqb (Qden r) 1 then Some (Qnum r) else None.

(** Arithmetic on numbers is exact.  [x % y] has the sign of [y].  A power
    with a non-integral exponent has no rational value (Python answers with
    an inexact float or a complex number): this object model reports it as
    [OverflowError].  The operators outside the allow-list are never
    consulted by [eval_expr]. *)
Definition binop (op : operator) (a b : value) : result value :=
  match num_of a, num_of b with
  | Some x, Some y =>
      match op with
      | Add => ret (VNum (x + y))
      | Sub => ret (VNum (x - y))
      | Mult => ret (VNum (x * y))
      | Div =>
          if Qeq_bool y 0 then raise ZeroDivisionError else ret (VNum (x / y))
      | Mod =>
          if Qeq_bool y 0 then raise ZeroDivisionError
          else ret (VNum (x - y * inject_Z (Qfloor (x / y))))
      | Pow =>
          match integral y with
          | Some n =>
              if Qeq_bool x 0 && (n <? 0)%Z then raise ZeroDivisionError
              else ret (VNum (Qpower x n))
          | None => raise OverflowError
          end
      | _ => raise TypeError
      end
  | _, _ => raise TypeError
  end.

Definition unaryop (op : Ast.unaryop) (a : value) : result value :=
  match num_of a with
  | Some x =>
      match op with
      | UAdd => ret (VNum x)
      | USub => ret (VNum (- x))
      | _ => raise TypeError
      end
  | None => raise TypeError
  end.

(** [==] between objects of any kind never raises. *)
Definition equal (a b : value) : bool :=
  match num_of a, num_of b with
  | Some x, Some y => Qeq_bool x y
  | _, _ =>
      match a, b with
      | VNone, VNone => true
      | VEmptyDict, VEmptyDict => true
      | _, _ => false
      end
  end.

Definition compare (op : cmpop) (a b : value) : result value :=
  match op with
  | Eq => ret (VBool (equal a b))
  | NotEq => ret (VBool (negb (equal a b)))
  | Lt | LtE | Gt | GtE =>
      match num_of a, num_of b with
      | Some x, Some y =>
          ret (VBool match op with
                     | Lt => Qltb x y
                     | LtE => Qle_bool x y
                     | Gt => Qgtb x y
                     | _ => Qgeb x y
                     end)
      | _, _ => raise TypeError
      end
  | _ => raise TypeError
  end.

Definition truth (a : value) : result bool :=
  match a with
  | VNum q => ret (negb (Qeq_bool q 0))
  | VBool b => ret b
  | VNone => ret false
  | VEmptyDict => ret false
  end.

(** The object model, for a given parser.  Constructs outside the allow-list
    are beyond it. *)
Definition python (parse : string -> result (expr value)) : CPython value := {|
  ast_parse := parse;
  py_binop := binop;
  py_unaryop := unaryop;
  py_compare := compare;
  py_bool := truth;
  py_empty_dict := VEmptyDict;
  py_eval_rest := fun _ _ _ => raise TypeError
|}.

(** A parser that knows the listed sources only, and reports a
    [SyntaxError] for any other. *)
Fixpoint parse_table (table : list (string * expr value)) (s : string)
    : result (expr value) :=
  match table with
  | [] => raise SyntaxError
  | (src, tree) :: rest =>
      if String.eqb src s then ret tree else parse_table rest s
  end.

End RationalObjects.

(** *** Inputs of the scenarios *)

Module Scenarios.

Import Ast RuleEngine Templates RationalObjects.
Local Open Scope string_scope.

(** The trees of four rule conditions, as [ast.parse] gives them. *)
Definition sources : list (string * expr value) :=
  [ ("dbfs < -30 and clip_ratio < 0.01",
     BoolOp And
       [Compare (Name "dbfs" Load) [Lt]
                [UnaryOp USub (Constant (VNum 30))];
        Compare (Name "clip_ratio" Load) [Lt] [Constant (VNum 0.01)]]);
    ("abs(dbfs) > 1",
     Compare (Call (Name "abs" Load) [Name "dbfs" Load]) [Gt]
             [Constant (VNum 1)]);
    ("loudness > 1",
     Compare (Name "loudness" Load) [Gt] [Constant (VNum 1)]);
    ("__builtins__ == __builtins__",
     Compare (Name "__builtins__" Load) [Eq] [Name "__builtins__" Load]) ].

Definition py : CPython value := python (parse_table sources).

Definition quiet_env : dict value :=
  [("dbfs", VNum (-35)); ("clip_ratio", VNum 0)].

(** The tree of ["rms > 0.05"]. *)
Definition rms_condition : expr value :=
  Compare (Name "rms" Load) [Gt] [Constant (VNum 0.05)].

(** The template of the scenario: one section, one rule. *)
Definition loud_template (heading : option string) : option template_data :=
  Some {| sections := Some
            [ {| sec_heading := heading;
                 sec_rules := [ {| rule_if := "rms > 0.05";
                                   rule_says := Text "loud enough" |} ] |} ] |}.

(** A parser that knows ["rms > 0.05"] only. *)
Definition rms_sources : list (string * expr value) :=
  [("rms > 0.05", rms_condition)].

End Scenarios.

(** ** Floating-point samples *)

(** A float is a real number or one of the IEEE special values.  Arithmetic on
    finite values is exact: rounding, overflow and the sign of zero are not
    modelled; the special values behave as in IEEE 754. *)
Module Float.

Local Open Scope R_scope.

Inductive float : Type :=
| Fin (r : R)
| PInf
| NInf
| NaN.

Definition Rltb (a b : R) : bool := if Rlt_dec a b then true else false.
Definition Reqb (a b : R) : bool := if Req_dec_T a b then true else false.

Definition is_nan (a : float) : bool :=
  match a with NaN => true | _ => false end.

(** [a < b]; false as soon as one side is NaN. *)
Definition flt (a b : float) : bool :=
  match a, b with
  | NaN, _ | _, NaN => false
  | Fin x, Fin y => Rltb x y
  | NInf, NInf => false
  | NInf, _ => true
  | _, NInf => false
  | PInf, _ => false
  | Fin _, PInf => true
  end.

Definition fgt (a b : float) : bool := flt b a.

Definition fabs (a : float) : float :=
  match a with
  | Fin x => Fin (Rabs x)
  | PInf | NInf => PInf
  | NaN => NaN
  end.

Definition fadd (a b : float) : float :=
  match a, b with
  | NaN, _ | _, NaN => NaN
  | Fin x, Fin y => Fin (x + y)
  | PInf, NInf | NInf, PInf => NaN
  | PInf, _ | _, PInf => PInf
  | NInf, _ | _, NInf => NInf
  end.

(** The infinity with the sign of [x], for [x <> 0]. *)
Definition inf_of_sign (x : R) : float := if Rltb 0 x then PInf else NInf.

Definition fmul (a b : float) : float :=
  match a, b with
  | NaN, _ | _, NaN => NaN
  | Fin x, Fin y => Fin (x * y)
  | Fin x, PInf | PInf, Fin x => if Reqb x 0 then NaN else inf_of_sign x
  | Fin x, NInf | NInf, Fin x => if Reqb x 0 then NaN else inf_of_sign (- x)
  | PInf, PInf | NInf, NInf => PInf
  | PInf, NInf | NInf, PInf => NInf
  end.

(** Division of NumPy arrays: a zero divisor gives an infinity or NaN. *)
Definition fdiv (a b : float) : float :=
  match a, b with
  | NaN, _ | _, NaN => NaN
  | Fin x, Fin y =>
      if Reqb y 0
      then (if Reqb x 0 then NaN else inf_of_sign x)
      else Fin (x / y)
  | Fin _, PInf | Fin _, NInf => Fin 0
  | PInf, Fin y => if Rltb y 0 then NInf else PInf
  | NInf, Fin y => if Rltb y 0 then PInf else NInf
  | _, _ => NaN
  end.

(** Division of Python floats: a zero divisor raises. *)
Definition py_div (a b : float) : result float :=
  match b with
  | Fin y => if Reqb y 0 then raise ZeroDivisionError else ret (fdiv a b)
  | _ => ret (fdiv a b)
  end.

(** Python's [max(a, b)] and [min(a, b)]: the first argument unless the
    second is strictly better. *)
Definition py_max (a b : float) : float := if fgt b a then b else a.
Definition py_min (a b : float) : float := if flt b a then b else a.

(** [np.maximum]: NaN wins. *)
Definition np_maximum (a b : float) : float :=
  match a, b with
  | NaN, _ | _, NaN => NaN
  | _, _ => if flt a b then b else a
  end.

(** [np.max] of an array; an empty array raises. *)
Definition np_max (x : list float) : result float :=
  match x with
  | [] => raise ValueError
  | a :: l => ret (fold_left np_maximum l a)
  end.

Definition np_sum (x : list float) : float := fold_left fadd x (Fin 0).

(** [np.mean] of a non-empty array; of an empty one NumPy returns NaN. *)
Definition np_mean (x : list float) : float :=
  fdiv (np_sum x) (Fin (INR (List.length x))).

Definition np_sqrt (a : float) : float :=
  match a with
  | Fin x => if Rltb x 0 then NaN else Fin (sqrt x)
  | PInf => PInf
  | NInf | NaN => NaN
  end.

Definition np_log10 (a : float) : float :=
  match a with
  | Fin x =>
      if Rltb x 0 then NaN
      else if Reqb x 0 then NInf
      else Fin (ln x / ln 10)
  | PInf => PInf
  | NInf | NaN => NaN
  end.

(** [np.nan_to_num(x, nan=0.0, posinf=0.0, neginf=0.0)], on one element. *)
Definition nan_to_num (a : float) : float :=
  match a with
  | Fin x => Fin x
  | _ => Fin 0
  end.

(** [np.clip(a, lo, hi)] on one element: [minimum(maximum(a, lo), hi)]. *)
Definition np_clip (lo hi : float) (a : float) : float :=
  match a with
  | NaN => NaN
  | _ => let b := if flt a lo then lo else a in if flt hi b then hi else b
  end.

(** The fraction of the elements that satisfy [p]: the mean of a Boolean
    array. *)
Definition fraction (p : float -> bool) (x : list float) : float :=
  fdiv (Fin (INR (List.length (filter p x)))) (Fin (INR (List.length x))).

(** The real value of a finite float. *)
Definition real_of (a : float) : R :=
  match a with Fin x => x | _ => 0 end.

(** The largest magnitude in a list of reals, 0 for the empty list. *)
Definition Rmaxabs (l : list R) : R :=
  fold_right (fun r m => Rmax (Rabs r) m) 0 l.

(** Insertion of [a] into a list sorted by [flt]. *)
Fixpoint insert_sorted (a : float) (l : list float) : list float :=
  match l with
  | [] => [a]
  | b :: l' => if flt b a then b :: insert_sorted a l' else a :: l
  end.

Definition sort (x : list float) : list float :=
  fold_right insert_sorted [] x.

(** [np.median] of a non-empty array: NaN if any element is, else the middle
    element or the mean of the two middle ones. *)
Definition np_median (x : list float) : float :=
  if existsb is_nan x then NaN
  else
    let s := sort x in
    let n := List.length x in
    if Nat.even n
    then fdiv (fadd (nth (n / 2 - 1) s NaN) (nth (n / 2) s NaN)) (Fin 2)
    else nth (n / 2) s NaN.

End Float.

(** ** Normalisation and signal metrics ([run_app.py]) *)

Module Signal.

Import Float.
Local Open Scope R_scope.
Local Open Scope py_scope.

(** [safe_peak]. *)
Definition safe_peak (x : list float) : result float :=
  match x with
  | [] => ret (Fin 0)
  | _ =>
      let xp := map nan_to_num x in
      np_max (map fabs xp)
  end.

(** [normalize_for_saving]; [None] stands for the argument [None].  A stereo
    array is taken element by element, as the code does. *)
Definition normalize_for_saving (x : option (list float)) (target_peak : float)
    : result (list float) :=
  match x with
  | None | Some [] => ret [Fin 0]
  | Some x =>
      let xp := map nan_to_num x in
      peak <- safe_peak xp ;;
      if flt peak (Fin (1 / 1000000)) then ret xp
      else
        let '(xp, peak) :=
          if fgt peak (Fin 1)
          then (map (fun a => fdiv a peak) xp, Fin 1)
          else (xp, peak) in
        scale <- py_div target_peak (py_max peak (Fin (1 / 1000000))) ;;
        ret (map (fun a => np_clip (Fin (-1)) (Fin 1) (fmul a scale)) xp)
  end.

(** The default of [target_peak]. *)
Definition default_target_peak : float := Fin (98 / 100).

(** What normalisation to the default target computes on finite samples of
    largest magnitude [p]: nothing below the silence threshold, else a scaling
    by [0.98 / p]. *)
Definition normalized (rs : list R) : list R :=
  let p := Rmaxabs rs in
  if Rltb p (1 / 1000000) then rs
  else map (fun r => r * (98 / 100 / p)) rs.

(** [np.max(np.abs(x))] guarded by [x.size], as the analysis path writes it. *)
Definition peak_or_zero (x : list float) : result float :=
  match x with
  | [] => ret (Fin 0)
  | _ => np_max (map fabs x)
  end.

(** The range auto-detection of [on_audio_change]: the samples and
    [peak_raw] after the two rescaling steps. *)
Definition auto_range (x_f32 : list float) : result (list float * float) :=
  peak_raw <- peak_or_zero x_f32 ;;
  r <- (if fgt peak_raw (Fin (15 / 10))
        then
          let x' := map (fun a => fdiv a (Fin 32768)) x_f32 in
          p' <- np_max (map fabs x') ;;
          ret (x', p')
        else ret (x_f32, peak_raw)) ;;
  let '(x_f32, peak_raw) := r : list float * float in
  if fgt peak_raw (Fin 1)
  then ret (map (fun a => fdiv a peak_raw) x_f32, Fin 1)
  else ret (x_f32, peak_raw).

(** What the range auto-detection computes on finite samples: a division by
    32768 when the largest magnitude exceeds 1.5, then a division by the
    remaining largest magnitude when that still exceeds 1. *)
Definition pcm_scaled (rs : list R) : list R :=
  if Rltb (15 / 10) (Rmaxabs rs) then map (fun r => r / 32768) rs else rs.

Definition ranged (rs : list R) : list R :=
  let rs1 := pcm_scaled rs in
  if Rltb 1 (Rmaxabs rs1) then map (fun r => r / Rmaxabs rs1) rs1 else rs1.

Record signal_metrics : Type := {
  peak : float;
  rms : float;
  dbfs : float;
  clip_ratio : float;
  silence_ratio : float;
  crest_factor : float
}.

(** The thresholds of [on_audio_change]: automatic, from the noise floor of
    the first half second, or the values of the two sliders. *)
Definition thresholds (x : list float) (sr : Z) (auto_tune : bool)
    (ui_silence_thresh ui_clip_level : float) : float * float :=
  let probe_len := Z.min (Z.of_nat (List.length x)) (Z.quot sr 2) in
  let noise_floor :=
    if (0 <? probe_len)%Z
    then np_median (map fabs (firstn (Z.to_nat probe_len) x))
    else Fin (5 / 1000) in
  let auto_silence :=
    py_max (Fin (1 / 100)) (py_min (Fin (8 / 100)) (fmul noise_floor (Fin 3))) in
  let auto_clip := Fin (98 / 100) in
  (if auto_tune then auto_silence else ui_silence_thresh,
   if auto_tune then auto_clip else ui_clip_level).

(** The signal metrics of [on_audio_change], computed on the received
    samples. *)
Definition compute_signal_metrics (x : list float) (sr : Z) (auto_tune : bool)
    (ui_silence_thresh ui_clip_level : float) : result signal_metrics :=
  let '(silence_thresh, clip_level) :=
    thresholds x sr auto_tune ui_silence_thresh ui_clip_level in
  r <- auto_range x ;;
  let x_f32 := fst r in
  peak <- peak_or_zero x_f32 ;;
  let rms :=
    match x_f32 with
    | [] => Fin 0
    | _ => np_sqrt (np_mean (map (fun a => fmul a a) x_f32))
    end in
  let dbfs := fmul (Fin 20) (np_log10 (py_max rms (Fin (1 / 10 ^ 12)))) in
  let clip_ratio :=
    match x_f32 with
    | [] => Fin 0
    | _ => fraction (fun a => fgt (fabs a) clip_level) x_f32
    end in
  let silence_ratio :=
    match x_f32 with
    | [] => Fin 1
    | _ => fraction (fun a => flt (fabs a) silence_thresh) x_f32
    end in
  crest_factor <-
    (if fgt rms (Fin 0) then py_div peak (fadd rms (Fin (1 / 10 ^ 12)))
     else ret PInf) ;;
  ret {| peak := peak; rms := rms; dbfs := dbfs; clip_ratio := clip_ratio;
         silence_ratio := silence_ratio; crest_factor := crest_factor |}.

End Signal.

(** ** Spectral analysis ([run_app.py]) *)

Module Spectral.

Local Open Scope Z_scope.

Definition n_fft : nat := 1024.
Definition hop : nat := 512.
Definition max_seconds : Z := 10.

(** *** Framing, shared by [make_spectrogram_plot] and
    [analyze_spectrum_for_comment] *)

Section Framing.

Variable A : Type.
Variable zero : A.

(** [x[: sr * max_seconds]] when [x] is longer than that. *)
Definition cap (x : list A) (sr : Z) : list A :=
  if Z.of_nat (List.length x) >? sr * max_seconds
  then firstn (Z.to_nat (sr * max_seconds)) x
  else x.

(** [1 + max(0, (len(x) - n_fft) // hop)]. *)
Definition n_frames (len : nat) : Z :=
  1 + Z.max 0 ((Z.of_nat len - Z.of_nat n_fft) / Z.of_nat hop).

(** [np.pad(x, (0, k))]. *)
Definition np_pad (x : list A) (k : nat) : list A := x ++ repeat zero k.

(** [x[start : start + n_fft]], padded to [n_fft] when shorter. *)
Definition frame_at (x : list A) (i : nat) : list A :=
  let start := (i * hop)%nat in
  let frame := firstn n_fft (skipn start x) in
  if (List.length frame <? n_fft)%nat
  then np_pad frame (n_fft - List.length frame)
  else frame.

(** The samples that are framed and the number of frames. *)
Definition framing (x : list A) : list A * nat :=
  let n := n_frames (List.length x) in
  if n <=? 0
  then (np_pad x (Z.to_nat (Z.max 0 (Z.of_nat n_fft - Z.of_nat (List.length x)))),
        1%nat)
  else (x, Z.to_nat n).

Definition frames (x : list A) : list (list A) :=
  let '(x, n) := framing x in
  map (frame_at x) (seq 0 n).

(** Sample [j] of [x] lies in the window of frame [i]. *)
Definition in_frame (i j : nat) : bool :=
  ((i * hop <=? j) && (j <? i * hop + n_fft))%nat.

(** Sample [j] lies in the window of one of the frames taken from [x]. *)
Definition covered (x : list A) (j : nat) : bool :=
  existsb (fun i => in_frame i j) (seq 0 (snd (framing x))).

End Framing.

(** *** Magnitude spectrum and band ratios *)

Local Open Scope R_scope.

Definition Rsum (l : list R) : R := fold_right Rplus 0 l.

(** A buffer of 1025 samples, and one of 2000 samples. *)
Definition short_tail : list R := repeat 0 1025.
Definition two_frames : list R := repeat 0 2000.

(** A frame under the window. *)
Definition windowed (frame win : list R) : list R :=
  map (fun p => fst p * snd p) (combine frame win).

(** [np.hanning(M)]. *)
Definition hanning (M : nat) : list R :=
  match M with
  | O => []
  | S O => [1]
  | _ =>
      map (fun j => 1 / 2 + 1 / 2 *
                    cos (PI * (1 - INR M + 2 * INR j) / (INR M - 1)))
          (seq 0 M)
  end.

(** [np.abs(np.fft.rfft(frame))]: the magnitudes of the bins
    [0 .. len(frame) // 2] of the discrete Fourier transform. *)
Definition rfft_abs (frame : list R) : list R :=
  let N := List.length frame in
  let indexed := combine (seq 0 N) frame in
  map (fun k =>
         let angle (n : nat) := 2 * PI * INR k * INR n / INR N in
         let re := Rsum (map (fun p => snd p * cos (angle (fst p))) indexed) in
         let im := Rsum (map (fun p => - (snd p * sin (angle (fst p)))) indexed) in
         sqrt (re * re + im * im))
      (seq 0 (N / 2 + 1)).


(** The loop that fills [spec_mag]: one magnitude spectrum per frame. *)
Definition spectra (x : list R) : list (list R) :=
  let win := hanning n_fft in
  map (fun frame => rfft_abs (windowed frame win)) (frames 0 x).







End Spectral.

(** ** Hot-reloading caches ([run_app.py]) *)

Module Caches.

Import Templates.
Local Open Scope string_scope.

(** What the file system answers during one call: [os.path.getmtime]
    ([None] when it raises [OSError]) and the outcome of opening and parsing
    the file ([None] when that raises). *)
Record file_state (D : Type) : Type := {
  stat : option Q;
  content : option D
}.

(** [_TPL_CACHE]. *)
Record tpl_cache : Type := {
  tpl_mtime : option Q;
  tpl_data : option template_data
}.

Definition _TPL_CACHE : tpl_cache := {| tpl_mtime := None; tpl_data := None |}.

(** [cached == mtime], where [cached] may be [None]. *)
Definition same_mtime (cached : option Q) (mtime : Q) : bool :=
  match cached with
  | Some m => Qeq_bool m mtime
  | None => false
  end.

(** [yaml.safe_load(f) or {}]: a document that loads as a false value
    ([None] here) is replaced by the empty mapping. *)
Definition or_empty (loaded : option template_data) : template_data :=
  match loaded with
  | Some d => d
  | None => {| sections := None |}
  end.

(** [load_templates_if_changed]: the returned template and the cache after
    the call. *)
Definition load_templates_if_changed (cache : tpl_cache)
    (fs : file_state (option template_data))
    : option template_data * tpl_cache :=
  match stat fs with
  | None => (None, {| tpl_mtime := None; tpl_data := None |})
  | Some mtime =>
      let cache :=
        if negb (same_mtime (tpl_mtime cache) mtime)
        then
          match content fs with
          | Some loaded =>
              {| tpl_mtime := Some mtime; tpl_data := Some (or_empty loaded) |}
          | None => {| tpl_mtime := None; tpl_data := None |}
          end
        else cache in
      (tpl_data cache, cache)
  end.

(** The cache after a sequence of calls. *)
Definition tpl_after (cache : tpl_cache)
    (calls : list (file_state (option template_data))) : tpl_cache :=
  fold_left (fun c fs => snd (load_templates_if_changed c fs)) calls cache.

(** One entry of the episodes file; [targets] is [ep.get("targets", [])],
    the other fields are [None] when the key is absent. *)
Record episode : Type := {
  title : option string;
  url : option string;
  reason : option string;
  targets : list string
}.

(** [_VOICY_CACHE]. *)
Record voicy_cache : Type := {
  voicy_mtime : option Q;
  voicy_episodes : list episode
}.

Definition _VOICY_CACHE : voicy_cache :=
  {| voicy_mtime := None; voicy_episodes := [] |}.

(** [load_voicy_episodes]; [content] is [data.get("episodes", [])] of the
    parsed file, [None] when reading, parsing or the lookup raises. *)
Definition load_voicy_episodes (cache : voicy_cache)
    (fs : file_state (list episode)) : list episode * voicy_cache :=
  match stat fs with
  | None => ([], cache)
  | Some mtime =>
      if same_mtime (voicy_mtime cache) mtime
      then (voicy_episodes cache, cache)
      else
        let episodes :=
          match content fs with
          | Some eps => eps
          | None => []
          end in
        (episodes, {| voicy_mtime := Some mtime; voicy_episodes := episodes |})
  end.

Definition voicy_after (cache : voicy_cache)
    (calls : list (file_state (list episode))) : voicy_cache :=
  fold_left (fun c fs => snd (load_voicy_episodes c fs)) calls cache.

(** The template cache holds nothing, or a document that some call read when
    the file had the cached modification time. *)
Definition tpl_sound (calls : list (file_state (option template_data)))
    (c : tpl_cache) : Prop :=
  match tpl_mtime c, tpl_data c with
  | None, None => True
  | Some m, Some d =>
      exists fs loaded,
        List.In fs calls /\ stat fs = Some m /\ content fs = Some loaded /\
        d = or_empty loaded
  | _, _ => False
  end.

(** The episode cache holds no episode, or the list that some call read when
    the file had the cached modification time. *)
Definition voicy_sound (calls : list (file_state (list episode)))
    (c : voicy_cache) : Prop :=
  voicy_episodes c = [] \/
  exists m fs,
    voicy_mtime c = Some m /\ List.In fs calls /\ stat fs = Some m /\
    content fs = Some (voicy_episodes c).




End Caches.

(** ** The recommended episode ([run_app.py]) *)

Module Voicy.

Import Caches Float.
Local Open Scope string_scope.
Local Open Scope py_scope.

(** A value of the feature mapping that the analyzer returns: a number, a
    list of numbers (the pitch and volume curves), or anything else. *)
Inductive feature_value : Type :=
| Number (q : Q)
| Series (l : list Q)
| Other.

(** The dict comprehension of [_pick_target_key_from_features]: the entries
    whose value is an [int] or a [float]. *)
Definition numeric_feats (features : dict feature_value) : dict Q :=
  flat_map (fun kv => match snd kv with
                      | Number q => [(fst kv, q)]
                      | _ => []
                      end) features.

(** [d.get(k)] for a key of [d]. *)
Definition value_at (d : dict Q) (k : string) : Q :=
  match get d k with
  | Some v => v
  | None => 0
  end.

(** [min(keys, key=d.get)], from the first key on: a later key replaces the
    best one only when its value is strictly smaller. *)
Fixpoint min_from (d : dict Q) (best : string) (keys : list string) : string :=
  match keys with
  | [] => best
  | k :: rest =>
      min_from d (if Qltb (value_at d k) (value_at d best) then k else best) rest
  end.

(** [_pick_target_key_from_features], on a dict. *)
Definition _pick_target_key_from_features (features : dict feature_value)
    : string :=
  let numeric_feats := numeric_feats features in
  match map fst numeric_feats with
  | [] => ""
  | k :: rest => min_from numeric_feats k rest
  end.





(** [ep[k]] for one of the three fields read by subscript. *)
Definition field (v : option string) : result string :=
  match v with
  | Some s => ret s
  | None => raise KeyError
  end.



(** The entry [(k, v)] is the first one of [d] with the least value. *)
Definition first_least (d : dict Q) (k : string) (v : Q) : Prop :=
  exists l1 l2,
    d = (l1 ++ (k, v) :: l2)%list /\
    Forall (fun kv => (v < snd kv)%Q) l1 /\
    Forall (fun kv => (v <= snd kv)%Q) l2.

(** A feature mapping in which two traits share the least value. *)
Definition tied_features : dict feature_value :=
  [("速さ", Number 0.7); ("抑揚", Number 0.4); ("ピッチ変化", Series [120; 180]);
   ("間", Number 0.4)]%Q.



End Voicy.

(** ** The comments under the graphs ([run_app.py]) *)

Module GraphComments.

Import Voicy Float.
Local Open Scope string_scope.

Definition ALLOWED_KEYS : list string := ["速さ"; "抑揚"; "音量"; "明瞭さ"; "間"].

(** [_scalar]: the mean of a list, 0.0 for an empty list and for a value
    that [float] does not convert. *)
Definition _scalar (v : feature_value) : Q :=
  match v with
  | Series [] => 0
  | Series l => fold_right Qplus 0 l / inject_Z (Z.of_nat (List.length l))
  | Number q => q
  | Other => 0
  end.

(** [feats_scalar]: the features of the radar chart, as scalars. *)
Definition feats_scalar (features : dict feature_value) : dict Q :=
  let features :=
    filter (fun kv => existsb (String.eqb (fst kv)) ALLOWED_KEYS) features in
  map (fun kv => (fst kv, _scalar (snd kv))) features.

(** [sorted(items, key=lambda kv: kv[1], reverse=True)]: the sort is stable,
    so entries of equal value keep their order. *)
Fixpoint insert_desc (x : string * Q) (l : list (string * Q))
    : list (string * Q) :=
  match l with
  | [] => [x]
  | y :: l' => if Qltb (snd x) (snd y) then y :: insert_desc x l' else x :: l
  end.

Definition sorted_desc (items : list (string * Q)) : list (string * Q) :=
  fold_right insert_desc [] items.

(** [sorted_feats[0] if sorted_feats else None]. *)
Definition strongest (sorted_feats : list (string * Q)) : option (string * Q) :=
  match sorted_feats with
  | x :: _ => Some x
  | [] => None
  end.

(** [sorted_feats[-1] if len(sorted_feats) > 1 else None]. *)
Definition weakest (sorted_feats : list (string * Q)) : option (string * Q) :=
  match sorted_feats with
  | x :: _ :: _ => Some (last sorted_feats x)
  | _ => None
  end.

Definition strongest_line (k : string) : string :=
  "- **「" ++ k ++ "」が今回のいちばんの伸びしろ（というか、すでに“武器”）**として出ています。"
  ++ " ここは遠慮せず、どんどん出していきましょう。".

Definition weakest_line (k : string) : string :=
  "- 反対に **「" ++ k ++ "」は少し控えめ**。"
  ++ " ここを“いきなり完璧”ではなく、まずは 10% だけ意識してみる…くらいがちょうどいいです。".

Definition balanced_line : string :=
  "- 全体的にバランス型の声になっています。"
  ++ " ここからは「どこをもっと目立たせたいか？」を決めて、少しずつメリハリをつけていきましょう。".

(** [radar_lines] of [build_graph_comments]. *)
Definition radar_lines (features : dict feature_value) : list string :=
  let sorted_feats := sorted_desc (feats_scalar features) in
  let radar_lines := [] in
  let radar_lines :=
    match strongest sorted_feats with
    | Some s => (radar_lines ++ [strongest_line (fst s)])%list
    | None => radar_lines
    end in
  let radar_lines :=
    match weakest sorted_feats with
    | Some w => (radar_lines ++ [weakest_line (fst w)])%list
    | None => radar_lines
    end in
  match radar_lines with
  | [] => [balanced_line]
  | _ => radar_lines
  end.

(** [radar_md] of [build_graph_comments]. *)
Definition radar_md (features : dict feature_value) : string :=
  let nl := Templates.nl in
  "### レーダーチャートの見方と、今回の強み" ++ nl ++ nl
  ++ "「速さ」「抑揚」「音量」「明瞭さ」「間」など、"
  ++ "声の要素をまとめて見られるのがレーダーチャートです。" ++ nl ++ nl
  ++ "外側に張り出しているほど、その項目が“よく出ている”イメージで見てくださいね。"
  ++ nl ++ nl
  ++ "今回のあなたの傾向は…" ++ nl ++ nl
  ++ String.concat nl (radar_lines features).

(** [a <= b] on floats; false as soon as one side is NaN. *)
Definition fle (a b : float) : bool :=
  match a, b with
  | NaN, _ | _, NaN => false
  | _, _ => negb (flt b a)
  end.

Definition loud_text : string :=
  "かなりしっかり響いていますね。"
  ++ "オンライン会議だと、マイク入力をひと目盛りだけ下げても十分届きそうです。".
Definition just_right_text : string :=
  "とっても聞き取りやすい、ちょうどいい音量感です。"
  ++ "この感じを“自分の標準”として、身体に覚えさせてあげましょう。".
Definition quiet_text : string :=
  "やや控えめな音量です。"
  ++ "大事なキーワードの前だけ、すこ〜しだけ声を前に押し出すイメージで話してみてくださいね。".

(** [loud_comment] of [build_graph_comments]. *)
Definition loud_comment (dbfs : float) : string :=
  if fgt dbfs (Fin (-12)) then loud_text
  else if fle (Fin (-25)) dbfs && fle dbfs (Fin (-15)) then just_right_text
  else quiet_text.

(** [clip_comment] of [build_graph_comments]. *)
Definition clip_comment (clip_ratio : float) : string :=
  if fgt clip_ratio (Fin (2 / 100))
  then "ところどころ音が割れかけています。"
       ++ "ワッと感情が高ぶったときこそ、ひと呼吸おいてから話し始めるクセをつけてあげましょう。"
  else "音割れはほとんどなく、耳に心地よい音量バランスです。"
       ++ "この安定感は、とっても大きな強みですよ。".

(** [silence_comment] of [build_graph_comments]. *)
Definition silence_comment (silence_ratio : float) : string :=
  if fgt silence_ratio (Fin (65 / 100))
  then "間がたっぷりめのスタイルです。"
       ++ "説明シーンでは、今より半歩だけテンポを上げてあげると、ぐっと聞きやすくなります。"
  else if flt silence_ratio (Fin (3 / 10))
  then "間が少なめで、情報がぎゅっと詰まった話し方になっています。"
       ++ "キーワードの前で 0.3 秒だけフッと止まる“間のごほうび”を入れてみましょう。"
  else "間の取り方が自然で、安心して聞いていられるテンポ感です。"
       ++ "このリズムは、そのまま大切に育てていきたいですね。".

(** The entry [(k, v)] is the first one of [d] with the greatest value. *)
Definition first_greatest (d : dict Q) (k : string) (v : Q) : Prop :=
  exists l1 l2,
    d = (l1 ++ (k, v) :: l2)%list /\
    Forall (fun kv => (snd kv < v)%Q) l1 /\
    Forall (fun kv => (snd kv <= v)%Q) l2.

(** The entry [(k, v)] is the last one of [d] with the least value. *)
Definition last_least (d : dict Q) (k : string) (v : Q) : Prop :=
  exists l1 l2,
    d = (l1 ++ (k, v) :: l2)%list /\
    Forall (fun kv => (v <= snd kv)%Q) l1 /\
    Forall (fun kv => (v < snd kv)%Q) l2.

End GraphComments.

(** ** Saving and plotting the recording ([run_app.py]) *)

Module Saving.

Import Float Signal.
Local Open Scope py_scope.





(** [l[k::step]] for [k < step]: the elements at the positions [k],
    [k + step], [k + 2 * step], ... *)
Fixpoint every {A} (step k : nat) (l : list A) : list A :=
  match l with
  | [] => []
  | a :: l' =>
      match k with
      | O => a :: every step (step - 1) l'
      | S k' => every step k' l'
      end
  end.

(** The trace drawn by [make_wave_plot]: the values of [x] and [y]. *)
Definition make_wave_plot (y : option (list float)) (max_points : Z)
    : result (list nat * list float) :=
  let y :=
    match y with
    | None | Some [] => [Fin 0]
    | Some y => y
    end in
  let len := Z.of_nat (List.length y) in
  y <- (if (max_points <? len)%Z
        then
          if (max_points =? 0)%Z then raise ZeroDivisionError
          else
            let step := Z.max 1 (len / max_points) in
            ret (every (Z.to_nat step) 0 y)
        else ret y) ;;
  ret (seq 0 (List.length y), y).

End Saving.

(** ** The placeholder extractor and the analysis ([speech_analyzer.py]) *)

Module Extractor.

Import SpeechAnalyzer Voicy.
Local Open Scope string_scope.
Local Open Scope py_scope.

Definition k_duration : string := "持続時間".
Definition k_pitch_curve : string := "ピッチ変化".
Definition k_volume_curve : string := "音量変化".

(** What [_generate_visualization_data] returns: the two curves and the
    values of the radar chart.  The spectrogram that [analyze_speech] adds to
    it is computed by SciPy and is left out. *)
Record visualization : Type := {
  waveform : list nat * list Q;              (* "波形": x and y *)
  pitch : list nat * list Q;                 (* "ピッチ": x and y *)
  metrics : list string * list Q             (* "メトリクス": labels and values *)
}.

(** [features[k]] where a number is needed: anything else makes the
    arithmetic raise [TypeError]. *)
Definition number_at (features : dict feature_value) (k : string) : result Q :=
  v <- getitem features k ;;
  match v with
  | Number q => ret q
  | _ => raise TypeError
  end.

(** [features[k]] where a list is needed. *)
Definition series_at (features : dict feature_value) (k : string)
    : result (list Q) :=
  v <- getitem features k ;;
  match v with
  | Series l => ret l
  | _ => raise TypeError
  end.

(** [_generate_visualization_data]. *)
Definition _generate_visualization_data (features : dict feature_value)
    : result visualization :=
  volume_curve <- series_at features k_volume_curve ;;
  pitch_curve <- series_at features k_pitch_curve ;;
  speed <- number_at features k_speed ;;
  intonation <- number_at features k_intonation ;;
  loudness <- number_at features k_loudness ;;
  clarity <- number_at features k_clarity ;;
  pauses <- number_at features k_pause ;;
  ret {| waveform := (seq 0 (List.length volume_curve), volume_curve);
         pitch := (seq 0 (List.length pitch_curve), pitch_curve);
         metrics :=
           ([k_speed; k_intonation; k_loudness; k_clarity; k_pause],
            [speed / 180; intonation / 2; loudness / 100; clarity;
             pauses / 3]%Q) |}.

(** What [analyze_speech] returns. *)
Record analysis : Type := {
  features : dict feature_value;
  evaluation : dict string;
  visualization_data : visualization;
  feedback_data : feedback_t
}.

Section Random.

(** The generator: [random k] is the [k]-th number that [random.random()]
    returns after the seeding, and [pick] the index that [random.choice]
    draws. *)
Variable random : nat -> Q.
Variable pick : nat.

(** [random.uniform(a, b)] at the [k]-th draw: [a + (b - a) * random()]. *)
Definition uniform (k : nat) (a b : Q) : Q := (a + (b - a) * random k)%Q.

(** The list [patterns]: its twenty-five numbers are drawn in order. *)
Definition patterns : list (dict Q) := [
  [ (k_speed, uniform 0 160 180); (k_intonation, uniform 1 0.3 0.5);
    (k_loudness, uniform 2 60 70); (k_clarity, uniform 3 0.6 0.8);
    (k_pause, uniform 4 0.2 0.4) ];
  [ (k_speed, uniform 5 100 120); (k_intonation, uniform 6 1.2 1.8);
    (k_loudness, uniform 7 65 75); (k_clarity, uniform 8 0.8 1.0);
    (k_pause, uniform 9 1.5 2.5) ];
  [ (k_speed, uniform 10 130 150); (k_intonation, uniform 11 0.4 0.6);
    (k_loudness, uniform 12 50 60); (k_clarity, uniform 13 0.5 0.7);
    (k_pause, uniform 14 0.5 1.0) ];
  [ (k_speed, uniform 15 130 150); (k_intonation, uniform 16 0.8 1.2);
    (k_loudness, uniform 17 65 75); (k_clarity, uniform 18 0.8 1.0);
    (k_pause, uniform 19 0.8 1.5) ];
  [ (k_speed, uniform 20 140 160); (k_intonation, uniform 21 1.5 1.8);
    (k_loudness, uniform 22 75 85); (k_clarity, uniform 23 0.7 0.9);
    (k_pause, uniform 24 0.3 0.8) ]
]%Q.

(** [_extract_dummy_features].  The selected pattern is completed in place
    with the duration and the two curves of fifty points. *)
Definition _extract_dummy_features : result (dict feature_value) :=
  let selected_pattern := nth (pick mod List.length patterns) patterns [] in
  let duration := uniform 25 30 120 in
  intonation <- getitem selected_pattern k_intonation ;;
  let '(pitch_curve, k) :=
    if Qltb intonation 0.6
    then
      let base_pitch := uniform 26 100 200 in
      (map (fun j => base_pitch + uniform (27 + j) (-20) 20)%Q (seq 0 50),
       77%nat)
    else (map (fun j => uniform (26 + j) 80 250) (seq 0 50), 76%nat) in
  loudness <- getitem selected_pattern k_loudness ;;
  let volume_curve :=
    if Qltb loudness 65
    then
      let base_volume := uniform k 50 60 in
      map (fun j => base_volume + uniform (k + 1 + j) (-10) 10)%Q (seq 0 50)
    else
      let base_volume := loudness in
      map (fun j => base_volume + uniform (k + j) (-15) 15)%Q (seq 0 50) in
  ret (map (fun kv => (fst kv, Number (snd kv))) selected_pattern
       ++ [ (k_duration, Number duration);
            (k_pitch_curve, Series pitch_curve);
            (k_volume_curve, Series volume_curve) ])%list.

(** [analyze_speech]: the recording is not read; the evaluation reads the
    numeric entries of the features. *)
Definition analyze_speech (self : dict metric_info) : result analysis :=
  speech_features <- _extract_dummy_features ;;
  evaluation <- _evaluate_speech_features self (numeric_feats speech_features) ;;
  visualization_data <- _generate_visualization_data speech_features ;;
  feedback <- _generate_feedback self evaluation ;;
  ret {| features := speech_features;
         evaluation := evaluation;
         visualization_data := visualization_data;
         feedback_data := feedback |}.

End Random.

(** The shape and the ranges of what the extractor returns. *)
Definition extracted (f : dict feature_value) : Prop :=
  exists s p v c m d pc vc,
    f = [ (k_speed, Number s); (k_intonation, Number p);
          (k_loudness, Number v); (k_clarity, Number c); (k_pause, Number m);
          (k_duration, Number d); (k_pitch_curve, Series pc);
          (k_volume_curve, Series vc) ] /\
    (100 <= s <= 180 /\ 0.3 <= p <= 1.8 /\ 50 <= v <= 85 /\
     0.5 <= c <= 1 /\ 0.2 <= m <= 2.5 /\ 30 <= d <= 120)%Q /\
    List.length pc = 50%nat /\ List.length vc = 50%nat /\
    Forall (fun y => 80 <= y <= 250)%Q pc /\
    Forall (fun y => 40 <= y <= 100)%Q vc.

(** A generator that always returns one half, and the balanced pattern. *)
Definition steady : nat -> Q := fun _ => (1 # 2)%Q.

(** The advice that closes every list of advice. *)
Definition closing_advice : string :=
  "継続的な練習が話し方の上達につながります。自分の声を録音して聞くことで、改善点が見えてきます。".

(** A feature mapping with every trait at the low end of its ideal range. *)
Definition low_end_features : dict Q :=
  [(k_speed, 120); (k_intonation, 0.5); (k_loudness, 60); (k_clarity, 0.7);
   (k_pause, 0.5)]%Q.

End Extractor.

(** ** The sample analysis plug-in ([plugins/analysis_custom.py]) *)

Module Plugin.

Import Float SpeechAnalyzer.
Local Open Scope string_scope.
Local Open Scope py_scope.




End Plugin.

(** ** The spectrogram plot ([run_app.py]) *)

Module Spectrogram.

Import Float Spectral.
Local Open Scope R_scope.



End Spectrogram.

(** * Properties *)

(** ** Boolean comparisons on rationals *)

Lemma Qltb_lt (a b : Q) : Qltb a b = true <-> (a < b)%Q.
Proof.
  unfold Qltb. rewrite negb_true_iff.
  split; intro H.
  - apply Qnot_le_lt. intro Hle. apply Qle_bool_iff in Hle. congruence.
  - destruct (Qle_bool b a) eqn:E; [|reflexivity].
    apply Qle_bool_iff in E. exfalso. apply (Qlt_not_le _ _ H E).
Qed.

Lemma Qltb_ge (a b : Q) : Qltb a b = false <-> (b <= a)%Q.
Proof.
  unfold Qltb. rewrite negb_false_iff. apply Qle_bool_iff.
Qed.

Lemma Qgeb_ge (a b : Q) : Qgeb a b = true <-> (b <= a)%Q.
Proof. unfold Qgeb. apply Qle_bool_iff. Qed.

Lemma Qgeb_lt (a b : Q) : Qgeb a b = false <-> (a < b)%Q.
Proof.
  unfold Qgeb. split; intro H.
  - apply Qnot_le_lt. intro Hle. apply Qle_bool_iff in Hle. congruence.
  - destruct (Qle_bool b a) eqn:E; [|reflexivity].
    apply Qle_bool_iff in E. exfalso. apply (Qlt_not_le _ _ H E).
Qed.


(** ** Trait classification and feedback composer *)

Module TraitFacts.

Import SpeechAnalyzer.
Local Open Scope string_scope.
Local Open Scope Q_scope.

Lemma getitem_some {V} (d : dict V) k v :
  get d k = Some v -> getitem d k = inr v.
Proof. unfold getitem. intros ->. reflexivity. Qed.

(** A two-sided classification step, as written for speed, intonation,
    loudness and pauses. *)
Lemma two_sided (lo hi v : Q) (low high : string) :
  lo <= hi ->
  let cat := if Qltb v lo then low else if Qgtb v hi then high else "good"%string in
  (v < lo -> cat = low) /\
  (hi < v -> cat = high) /\
  (lo <= v <= hi -> cat = "good"%string).
Proof.
  intros Hr cat. subst cat. unfold Qgtb.
  repeat split.
  - intro H. apply Qltb_lt in H. now rewrite H.
  - intro H.
    assert (Hlo : Qltb v lo = false) by (apply Qltb_ge; lra).
    apply Qltb_lt in H. now rewrite Hlo, H.
  - intros [H1 H2].
    apply Qltb_ge in H1. apply Qltb_ge in H2. now rewrite H1, H2.
Qed.

(** The one-sided step written for clarity. *)
Lemma one_sided (lo v : Q) (low : string) :
  let cat := if Qltb v lo then low else "good"%string in
  (v < lo -> cat = low) /\ (lo <= v -> cat = "good"%string).
Proof.
  intro cat. subst cat. split; intro H.
  - apply Qltb_lt in H. now rewrite H.
  - apply Qltb_ge in H. now rewrite H.
Qed.

(** C7. With the ideal ranges set by the constructor, every trait is
    classified inclusively at both ends of its range: below [lo] the low-side
    category, above [hi] the high-side category, ["good"] from [lo] to [hi]
    with both ends included; clarity has a low side only, so every value from
    [lo] upwards, also above [hi], is ["good"]. *)
Theorem C7_classification_boundary_inclusive :
  forall (features : dict Q) (speed pitch volume clarity pauses : Q),
    get features k_speed = Some speed ->
    get features k_intonation = Some pitch ->
    get features k_loudness = Some volume ->
    get features k_clarity = Some clarity ->
    get features k_pause = Some pauses ->
    exists s i l c p : string,
      _evaluate_speech_features voice_metrics features =
        inr [(k_speed, s); (k_intonation, i); (k_loudness, l);
             (k_clarity, c); (k_pause, p)] /\
      ((speed < 120 -> s = "too_slow"%string) /\
       (150 < speed -> s = "too_fast"%string) /\
       (120 <= speed <= 150 -> s = "good"%string)) /\
      ((pitch < 0.5 -> i = "too_flat"%string) /\
       (1.5 < pitch -> i = "too_varied"%string) /\
       (0.5 <= pitch <= 1.5 -> i = "good"%string)) /\
      ((volume < 60 -> l = "too_quiet"%string) /\
       (75 < volume -> l = "too_loud"%string) /\
       (60 <= volume <= 75 -> l = "good"%string)) /\
      ((clarity < 0.7 -> c = "unclear"%string) /\
       (0.7 <= clarity -> c = "good"%string)) /\
      ((pauses < 0.5 -> p = "too_few"%string) /\
       (2.0 < pauses -> p = "too_many"%string) /\
       (0.5 <= pauses <= 2.0 -> p = "good"%string)).
Proof.
  intros features speed pitch volume clarity pauses Hs Hi Hl Hc Hp.
  unfold _evaluate_speech_features.
  rewrite (getitem_some _ _ Hs), (getitem_some _ _ Hi), (getitem_some _ _ Hl),
          (getitem_some _ _ Hc), (getitem_some _ _ Hp).
  cbn [Py.bind range_of].
  do 5 eexists. split; [reflexivity|].
  cbn [fst snd ideal_range].
  repeat apply conj.
  all: try (apply two_sided; lra).
  all: try (apply (one_sided 0.7 clarity "unclear")).
Qed.

Lemma C7_classification_boundary_inclusive_witness :
  exists s i l c p : string,
    _evaluate_speech_features voice_metrics
      [(k_speed, 120); (k_intonation, 1.5); (k_loudness, 59);
       (k_clarity, 1.2); (k_pause, 2.5)] =
      inr [(k_speed, s); (k_intonation, i); (k_loudness, l);
           (k_clarity, c); (k_pause, p)] /\
    s = "good"%string /\ i = "good"%string /\ l = "too_quiet"%string /\
    c = "good"%string /\ p = "too_many"%string.
Proof.
  destruct (@C7_classification_boundary_inclusive
              [(k_speed, 120); (k_intonation, 1.5); (k_loudness, 59);
               (k_clarity, 1.2); (k_pause, 2.5)]
              120 1.5 59 1.2 2.5
              eq_refl eq_refl eq_refl eq_refl eq_refl)
    as (s & i & l & c & p & Hev & Hs & Hi & Hl & Hc & Hp).
  exists s, i, l, c, p.
  split; [exact Hev|].
  repeat split.
  - apply Hs. split; discriminate.
  - apply Hi. split; discriminate.
  - apply Hl. reflexivity.
  - apply Hc. discriminate.
  - apply Hp. reflexivity.
Defined.

(** *** The feedback composer *)

Section Composer.

Variable self : dict metric_info.

Lemma collect_points_spec (items : dict string) :
  Forall (renderable self) items ->
  forall good bad,
    collect_points self items good bad =
      inr ((good ++ map (line_of self) (filter is_good items))%list,
           (bad ++ map (line_of self)
                     (filter (fun it => negb (is_good it)) items))%list).
Proof.
  induction 1 as [|[metric res] rest Hr _ IH]; intros good bad.
  - cbn. now rewrite !app_nil_r.
  - destruct Hr as (info & text & Hinfo & Htext). cbn in Hinfo, Htext.
    assert (Hline : line_of self (metric, res) = (metric ++ ": " ++ text)%string).
    { unfold line_of. cbn [fst snd]. now rewrite Hinfo, Htext. }
    cbn [collect_points].
    rewrite (getitem_some _ _ Hinfo). cbn [Py.bind].
    rewrite (getitem_some _ _ Htext). cbn [Py.bind].
    cbn [filter].
    change (is_good (metric, res)) with (String.eqb res "good").
    destruct (String.eqb res "good"); cbn [negb map];
      rewrite IH, Hline, <- !app_assoc; reflexivity.
Qed.

Lemma filter_split_length {A} (p : A -> bool) (l : list A) :
  (List.length (filter p l) + List.length (filter (fun a => negb (p a)) l)
   = List.length l)%nat.
Proof.
  induction l as [|a l IH]; cbn; [reflexivity|].
  destruct (p a); cbn; lia.
Qed.

Lemma score_of_pos (g t : nat) :
  t <> O ->
  score_of g t = inr (inject_Z (Z.of_nat g) / inject_Z (Z.of_nat t)).
Proof.
  intro Ht. unfold score_of.
  destruct (Nat.eqb_spec t 0); [contradiction|reflexivity].
Qed.

(** The composer returns on every non-empty evaluation whose entries have a
    sentence; the two lists and the score are as follows. *)
Lemma generate_feedback_spec (evaluation : dict string) :
  evaluation <> [] ->
  Forall (renderable self) evaluation ->
  let score :=
    inject_Z (Z.of_nat (count_good evaluation)) /
    inject_Z (Z.of_nat (List.length evaluation)) in
  aggregate_score self evaluation = inr score /\
  _generate_feedback self evaluation =
    inr {| strengths := map (line_of self) (filter is_good evaluation);
           improvements :=
             map (line_of self)
                 (filter (fun it => negb (is_good it)) evaluation);
           overall := overall_of score;
           advice := advice_for evaluation |}.
Proof.
  intros Hne Hall score.
  assert (Hlen : List.length evaluation <> O)
    by (destruct evaluation; [contradiction|discriminate]).
  unfold aggregate_score, _generate_feedback.
  rewrite (collect_points_spec Hall). cbn [Py.bind fst snd app].
  rewrite length_map. fold (count_good evaluation).
  rewrite (score_of_pos _ Hlen). cbn [Py.bind].
  split; reflexivity.
Qed.

End Composer.

Lemma overall_of_tiers (score : Q) :
  (0.8 <= score -> overall_of score = tier_best) /\
  (0.6 <= score < 0.8 -> overall_of score = tier_second) /\
  (0.4 <= score < 0.6 -> overall_of score = tier_third) /\
  (score < 0.4 -> overall_of score = tier_worst).
Proof.
  unfold overall_of.
  repeat split.
  - intro H. apply Qgeb_ge in H. now rewrite H.
  - intros [H1 H2]. apply Qgeb_ge in H1. apply Qgeb_lt in H2.
    now rewrite H2, H1.
  - intros [H1 H2]. apply Qgeb_ge in H1.
    assert (H3 : Qgeb score 0.8 = false) by (apply Qgeb_lt; lra).
    apply Qgeb_lt in H2. now rewrite H3, H2, H1.
  - intro H.
    assert (H1 : Qgeb score 0.8 = false) by (apply Qgeb_lt; lra).
    assert (H2 : Qgeb score 0.6 = false) by (apply Qgeb_lt; lra).
    apply Qgeb_lt in H. now rewrite H1, H2, H.
Qed.

Lemma tiers_distinct : NoDup [tier_best; tier_second; tier_third; tier_worst].
Proof.
  repeat constructor; cbn; intuition discriminate.
Qed.

(** C9. On a non-empty evaluation whose entries have a sentence, the composer
    returns; its score is the number of traits evaluated ["good"] divided by
    the number of evaluated traits, and the overall assessment is the one of
    four distinct texts selected by the thresholds 0.8, 0.6 and 0.4. *)
Theorem C9_score_and_tiers :
  forall evaluation : dict string,
    evaluation <> [] ->
    Forall (renderable voice_metrics) evaluation ->
    exists fb score,
      _generate_feedback voice_metrics evaluation = inr fb /\
      aggregate_score voice_metrics evaluation = inr score /\
      score == inject_Z (Z.of_nat (count_good evaluation)) /
               inject_Z (Z.of_nat (List.length evaluation)) /\
      (0.8 <= score -> overall fb = tier_best) /\
      (0.6 <= score < 0.8 -> overall fb = tier_second) /\
      (0.4 <= score < 0.6 -> overall fb = tier_third) /\
      (score < 0.4 -> overall fb = tier_worst) /\
      NoDup [tier_best; tier_second; tier_third; tier_worst].
Proof.
  intros evaluation Hne Hall.
  destruct (generate_feedback_spec Hne Hall) as [Hscore Hfb].
  eexists. eexists.
  split; [exact Hfb|]. split; [exact Hscore|]. split; [reflexivity|].
  cbn [overall].
  pose proof (overall_of_tiers
    (inject_Z (Z.of_nat (count_good evaluation)) /
     inject_Z (Z.of_nat (List.length evaluation)))) as (T1 & T2 & T3 & T4).
  repeat split; try assumption.
  apply tiers_distinct.
Qed.

Lemma renderable_four_of_five : Forall (renderable voice_metrics) four_of_five.
Proof.
  unfold four_of_five.
  repeat (apply Forall_cons;
          [unfold renderable; cbn; eexists; eexists; split; reflexivity|]).
  apply Forall_nil.
Qed.

Lemma C9_score_and_tiers_witness :
  exists fb score,
    _generate_feedback voice_metrics four_of_five = inr fb /\
    aggregate_score voice_metrics four_of_five = inr score /\
    score == 4 # 5 /\ overall fb = tier_best.
Proof.
  destruct (@C9_score_and_tiers four_of_five
              ltac:(discriminate) renderable_four_of_five)
    as (fb & score & Hfb & Hs & Hq & T1 & _).
  exists fb, score.
  split; [exact Hfb|]. split; [exact Hs|].
  split; [rewrite Hq; reflexivity|].
  apply T1. rewrite Hq. discriminate.
Defined.

(** C10, as stated, fails: on the empty evaluation the composer divides by
    zero and returns nothing. *)
Lemma C10_counterexample_empty_evaluation :
  _generate_feedback voice_metrics [] = inl ZeroDivisionError /\
  aggregate_score voice_metrics [] = inl ZeroDivisionError.
Proof. split; reflexivity. Qed.

(** C10 (amended). On a non-empty evaluation whose entries have a sentence,
    every entry goes to exactly one list: the strengths are the lines of the
    ["good"] entries, the improvements those of all other entries, in order;
    the two lengths add up to the number of entries and the score is
    [len(strengths) / len(evaluation)]. *)
Theorem C10_partition_of_traits :
  forall evaluation : dict string,
    evaluation <> [] ->
    Forall (renderable voice_metrics) evaluation ->
    exists fb score,
      _generate_feedback voice_metrics evaluation = inr fb /\
      aggregate_score voice_metrics evaluation = inr score /\
      strengths fb = map (line_of voice_metrics) (filter is_good evaluation) /\
      improvements fb =
        map (line_of voice_metrics)
            (filter (fun it => negb (is_good it)) evaluation) /\
      (List.length (strengths fb) + List.length (improvements fb)
       = List.length evaluation)%nat /\
      score == inject_Z (Z.of_nat (List.length (strengths fb))) /
               inject_Z (Z.of_nat (List.length evaluation)).
Proof.
  intros evaluation Hne Hall.
  destruct (generate_feedback_spec Hne Hall) as [Hscore Hfb].
  eexists. eexists.
  split; [exact Hfb|]. split; [exact Hscore|].
  cbn [strengths improvements].
  split; [reflexivity|]. split; [reflexivity|].
  rewrite !length_map. split.
  - apply filter_split_length.
  - reflexivity.
Qed.

Lemma C10_partition_of_traits_witness :
  exists fb,
    _generate_feedback voice_metrics four_of_five = inr fb /\
    List.length (strengths fb) = 4%nat /\
    List.length (improvements fb) = 1%nat.
Proof.
  destruct (@C10_partition_of_traits four_of_five
              ltac:(discriminate) renderable_four_of_five)
    as (fb & score & Hfb & _ & Hs & Hi & _).
  exists fb. split; [exact Hfb|].
  rewrite Hs, Hi. split; reflexivity.
Defined.

End TraitFacts.

(** ** The rule-expression evaluator *)

Module RuleEngineFacts.

Import Ast RuleEngine.
Local Open Scope string_scope.

(** Induction on trees, with the hypothesis for every child. *)
Lemma node_induction (Q : node -> Prop) :
  (forall c children, Forall Q children -> Q (Node c children)) ->
  forall n, Q n.
Proof.
  intro H. fix IH 1. intros [c children]. apply H.
  induction children as [|x l IHl]; constructor; [apply IH|exact IHl].
Qed.

(** The loop of [_check] over the children. *)
Lemma check_node (c : node_class) (children : list node) :
  _check (Node c children) = inr tt <->
  _ALLOWED_NODES c = true /\ Forall (fun n => _check n = inr tt) children.
Proof.
  cbn [_check]. destruct (_ALLOWED_NODES c).
  - induction children as [|x l IH].
    + split; [intros _; split; [reflexivity|constructor]|reflexivity].
    + destruct (_check x) as [e|[]] eqn:E; cbn [Py.bind].
      * split; [discriminate|].
        intros [_ H]. inversion H; subst. congruence.
      * rewrite IH. split.
        -- intros [_ H]. split; [reflexivity|]. constructor; assumption.
        -- intros [_ H]. inversion H; subst. split; [reflexivity|assumption].
  - split; [discriminate|]. intros [H _]. discriminate.
Qed.

(** [_check] returns or raises [ValueError], nothing else. *)
Lemma check_result (n : node) :
  _check n = inr tt \/ _check n = inl ValueError.
Proof.
  induction n as [c children IH] using node_induction.
  cbn [_check]. destruct (_ALLOWED_NODES c); [|right; reflexivity].
  induction IH as [|x l Hx _ IHl]; [left; reflexivity|].
  destruct Hx as [-> | ->]; cbn [Py.bind]; [exact IHl|right; reflexivity].
Qed.

(** The validation pass accepts a tree exactly when every class in it is on
    the allow-list. *)
Lemma check_accepts_iff (n : node) :
  _check n = inr tt <-> forallb _ALLOWED_NODES (classes n) = true.
Proof.
  induction n as [c children IH] using node_induction.
  rewrite check_node. cbn [classes forallb]. rewrite andb_true_iff.
  apply and_iff_compat_l.
  induction IH as [|x l Hx _ IHl]; cbn [flat_map].
  - split; [reflexivity|constructor].
  - rewrite forallb_app, andb_true_iff, <- IHl, <- Hx.
    split.
    + intro H. inversion H; subst. split; assumption.
    + intros [H1 H2]. constructor; assumption.
Qed.

Lemma check_rejects (n : node) :
  existsb (fun c => negb (_ALLOWED_NODES c)) (classes n) = true ->
  _check n = inl ValueError.
Proof.
  intro H. destruct (check_result n) as [Hok|Hno]; [|exact Hno].
  apply check_accepts_iff in Hok.
  apply existsb_exists in H. destruct H as (c & Hin & Hc).
  rewrite forallb_forall in Hok. rewrite (Hok c Hin) in Hc. discriminate.
Qed.

Lemma check_rejects_class (n : node) (c : node_class) :
  List.In c (classes n) -> _ALLOWED_NODES c = false ->
  _check n = inl ValueError.
Proof.
  intros Hin Hc. apply check_rejects. apply existsb_exists.
  exists c. split; [exact Hin|]. now rewrite Hc.
Qed.

(** Induction on expressions, with the hypothesis for the operands of the
    forms that the evaluator descends into. *)
Lemma expr_induction (value : Type) (Q : expr value -> Prop) :
  (forall op values, Forall Q values -> Q (BoolOp op values)) ->
  (forall l op r, Q l -> Q r -> Q (BinOp l op r)) ->
  (forall op x, Q x -> Q (UnaryOp op x)) ->
  (forall l ops cs, Q l -> Forall Q cs -> Q (Compare l ops cs)) ->
  (forall id ctx, Q (Name id ctx)) ->
  (forall v, Q (Constant v)) ->
  (forall f args, Q (Call f args)) ->
  (forall x attr ctx, Q (Attribute x attr ctx)) ->
  (forall x i ctx, Q (Subscript x i ctx)) ->
  (forall t b o, Q (IfExp t b o)) ->
  (forall elts ctx, Q (List_ elts ctx)) ->
  (forall elts ctx, Q (Tuple elts ctx)) ->
  (forall f parts, Q (Other f parts)) ->
  forall e, Q e.
Proof.
  intros HBool HBin HUn HCmp HName HConst HCall HAttr HSub HIf HList HTup HOth.
  fix IH 1. intros [op values|l op r|op x|l ops cs|id ctx|v|f args|x attr ctx
                   |x i ctx|t b o|elts ctx|elts ctx|f parts].
  - apply HBool. induction values; constructor; [apply IH|assumption].
  - apply HBin; apply IH.
  - apply HUn; apply IH.
  - apply HCmp; [apply IH|].
    induction cs; constructor; [apply IH|assumption].
  - apply HName.
  - apply HConst.
  - apply HCall.
  - apply HAttr.
  - apply HSub.
  - apply HIf.
  - apply HList.
  - apply HTup.
  - apply HOth.
Qed.

Lemma ret_safe {A} (a : A) : raises_Exception_only (ret a).
Proof. intros ex H. discriminate. Qed.

Lemma raise_safe {A} (e : exc) :
  is_Exception e = true -> raises_Exception_only (@raise A e).
Proof. intros He ex H. injection H as <-. exact He. Qed.

Lemma bind_safe {A B} (m : result A) (k : A -> result B) :
  raises_Exception_only m ->
  (forall a, m = inr a -> raises_Exception_only (k a)) ->
  raises_Exception_only (Py.bind m k).
Proof.
  intros Hm Hk ex. destruct m as [e|a]; cbn [Py.bind].
  - intro H. injection H as <-. now apply Hm.
  - now apply Hk.
Qed.

Section Evaluator.

Context {value : Type} {P : CPython value}.
Hypothesis laws : CPythonLaws P.

Lemma load_name_safe (g l b : dict value) (id : string) :
  raises_Exception_only (load_name g l b id).
Proof.
  unfold load_name.
  destruct (get l id); [apply ret_safe|].
  destruct (get g id); [apply ret_safe|].
  destruct (get b id); [apply ret_safe|].
  now apply raise_safe.
Qed.

(** The name bindings of an evaluation: the environment, then the single
    global ["__builtins__"], bound to the empty mapping; any other name
    raises [NameError]. *)
Lemma load_name_eval (env : dict value) (id : string) :
  load_name eval_globals env [] id =
    match get env id with
    | Some v => inr v
    | None =>
        if String.eqb "__builtins__" id then inr py_empty_dict
        else inl NameError
    end.
Proof.
  unfold load_name, eval_globals. cbn [get].
  destruct (get env id); [reflexivity|].
  destruct (String.eqb "__builtins__" id); reflexivity.
Qed.

Lemma Forall_check_map (l : list (expr value)) :
  Forall (fun n => _check n = inr tt) (map (@node_of value) l) ->
  Forall (fun e => _check (node_of e) = inr tt) l.
Proof.
  induction l; cbn; intro H; constructor; inversion H; subst; auto.
Qed.

Lemma Forall_check_ops (ops : list cmpop) :
  Forall (fun n => _check n = inr tt) (map (fun o => leaf (C_cmpop o)) ops) ->
  forallb (fun o => _ALLOWED_NODES (C_cmpop o)) ops = true.
Proof.
  induction ops as [|o ops IH]; cbn [map forallb]; intro H; [reflexivity|].
  inversion H as [|? ? Ho Hrest]; subst.
  apply check_node in Ho. destruct Ho as [Ho _].
  rewrite Ho. cbn. now apply IH.
Qed.

(** After a successful validation, evaluation raises exceptions derived from
    [Exception] only, and does not reach a construct outside the
    allow-list. *)
Lemma eval_checked_safe (g b : dict value) (e : expr value) :
  _check (node_of e) = inr tt ->
  forall l, raises_Exception_only (eval_expr g l b e).
Proof.
  induction e as [op values IH|x1 op x2 IH1 IH2|op x IH|x ops cs IHx IHcs
                 |id ctx|v|f args|x attr ctx|x i ctx|t bd o|elts ctx|elts ctx
                 |f parts] using expr_induction;
    intros Hc l; cbn [node_of] in Hc; apply check_node in Hc;
    destruct Hc as [Hcls Hch]; try discriminate Hcls.
  - (* BoolOp *)
    inversion Hch as [|? ? _ Hvals]; subst.
    apply Forall_check_map in Hvals.
    assert (Hall : Forall (fun e => raises_Exception_only (eval_expr g l b e))
                          values).
    { rewrite Forall_forall in *. intros e He. apply IH; auto. }
    cbn [eval_expr].
    destruct values as [|v1 [|v2 rest]];
      [now apply raise_safe|now apply raise_safe|].
    clear IH Hvals Hch. revert Hall.
    generalize (v1 :: v2 :: rest). intros vs Hall.
    induction Hall as [|y ys Hy Hys IHys]; [now apply raise_safe|].
    destruct ys as [|y' ys']; [exact Hy|].
    apply bind_safe; [exact Hy|]. intros a _.
    apply bind_safe; [intros ex Hex; eapply py_bool_exc; eauto|].
    intros t _. destruct op, t; try apply ret_safe; exact IHys.
  - (* BinOp *)
    inversion Hch as [|? ? H1 Hr]; subst.
    inversion Hr as [|? ? Hop Hr']; subst.
    inversion Hr' as [|? ? H2 _]; subst.
    apply check_node in Hop. destruct Hop as [Hop _].
    cbn [eval_expr]. rewrite Hop.
    apply bind_safe; [now apply IH1|]. intros a _.
    apply bind_safe; [now apply IH2|]. intros c _.
    intros ex Hex. eapply py_binop_exc; eauto.
  - (* UnaryOp *)
    inversion Hch as [|? ? Hop Hr]; subst.
    inversion Hr as [|? ? H1 _]; subst.
    apply check_node in Hop. destruct Hop as [Hop _].
    cbn [eval_expr]. rewrite Hop.
    apply bind_safe; [now apply IH|]. intros a _.
    intros ex Hex. eapply py_unaryop_exc; eauto.
  - (* Compare *)
    inversion Hch as [|? ? Hx Hr]; subst.
    apply Forall_app in Hr. destruct Hr as [Hops Hcs].
    apply Forall_check_ops in Hops. apply Forall_check_map in Hcs.
    assert (Hall : Forall (fun e => raises_Exception_only (eval_expr g l b e))
                          cs).
    { rewrite Forall_forall in *. intros e He. apply IHcs; auto. }
    cbn [eval_expr]. rewrite Hops.
    destruct (negb (Nat.eqb (List.length ops) (List.length cs))
              || Nat.eqb (List.length ops) 0);
      [now apply raise_safe|].
    apply bind_safe; [now apply IHx|]. intros a _.
    clear IHcs Hcs Hops Hch. revert a ops.
    induction Hall as [|y ys Hy Hys IHys]; intros a ops;
      [now apply raise_safe|].
    destruct ops as [|o ops']; [now apply raise_safe|].
    apply bind_safe; [exact Hy|]. intros c _.
    apply bind_safe; [intros ex Hex; eapply py_compare_exc; eauto|].
    intros r _. destruct ops' as [|o' ops'']; [apply ret_safe|].
    apply bind_safe; [intros ex Hex; eapply py_bool_exc; eauto|].
    intros t _. destruct t; [apply IHys|apply ret_safe].
  - (* Name *)
    inversion Hch as [|? ? Hctx _]; subst.
    apply check_node in Hctx. destruct Hctx as [Hctx _].
    destruct ctx; try discriminate Hctx.
    cbn [eval_expr]. apply load_name_safe.
  - (* Constant *)
    cbn [eval_expr]. apply ret_safe.
Qed.

Lemma safe_eval_parsed (source : string) (tree : expr value) (env : dict value) :
  ast_parse source = inr tree ->
  _safe_eval_expr source env = except_Exception_False (checked_eval tree env).
Proof. unfold _safe_eval_expr. intros ->. reflexivity. Qed.

Lemma check_tree (tree : expr value) :
  _check (node_of_tree tree) = inr tt -> _check (node_of tree) = inr tt.
Proof.
  unfold node_of_tree. intro H. apply check_node in H.
  destruct H as [_ H]. now inversion H.
Qed.

Lemma checked_eval_safe (tree : expr value) (env : dict value) :
  raises_Exception_only (checked_eval tree env).
Proof.
  unfold checked_eval.
  apply bind_safe.
  - intros ex H. destruct (check_result (node_of_tree tree)) as [E|E];
      rewrite E in H; [discriminate|]. now injection H as <-.
  - intros [] Hc. apply bind_safe.
    + apply eval_checked_safe. now apply check_tree.
    + intros v _ ex H. eapply py_bool_exc; eauto.
Qed.

Lemma except_safe_returns (body : result bool) :
  raises_Exception_only body ->
  exists b, except_Exception_False body = inr b.
Proof.
  intro H. destruct body as [e|b]; cbn.
  - rewrite (H e eq_refl). now exists false.
  - now exists b.
Qed.

Lemma except_safe_raise (body : result bool) (e : exc) :
  raises_Exception_only body -> body = inl e ->
  except_Exception_False body = inr false.
Proof. intros H ->. cbn. now rewrite (H e eq_refl). Qed.

Lemma safe_eval_returns (source : string) (env : dict value) :
  exists b, _safe_eval_expr source env = inr b.
Proof.
  unfold _safe_eval_expr. destruct (ast_parse source) as [e|tree] eqn:Hp.
  - rewrite (ast_parse_exc laws _ Hp). now exists false.
  - apply except_safe_returns, checked_eval_safe.
Qed.

(** C1 (amended). For every expression and environment the evaluator returns
    a Boolean and raises nothing; it returns [False] when the expression does
    not parse, when the tree holds a node outside the allow-list (a call, an
    attribute access or a subscript in particular), and when evaluation or
    the final truth test fails.  A name is looked up in the environment and
    then in the globals, whose only entry is ["__builtins__"], bound to the
    empty mapping: no builtin is reachable, and any other name outside the
    environment raises [NameError]. *)
Theorem C1_safe_eval_never_raises :
  forall (source : string) (env : dict value),
    (exists b, _safe_eval_expr source env = inr b) /\
    (forall e, ast_parse source = inl e -> _safe_eval_expr source env = inr false) /\
    (forall tree, ast_parse source = inr tree ->
       (existsb (fun c => negb (_ALLOWED_NODES c))
                (classes (node_of_tree tree)) = true ->
        _safe_eval_expr source env = inr false) /\
       (List.In C_Call (classes (node_of_tree tree)) \/
        List.In C_Attribute (classes (node_of_tree tree)) \/
        List.In C_Subscript (classes (node_of_tree tree)) ->
        _safe_eval_expr source env = inr false) /\
       (forall e, eval_expr eval_globals env [] tree = inl e ->
        _safe_eval_expr source env = inr false) /\
       (forall v e, eval_expr eval_globals env [] tree = inr v ->
        py_bool v = inl e ->
        _safe_eval_expr source env = inr false)) /\
    (forall id,
       load_name eval_globals env [] id =
         match get env id with
         | Some v => inr v
         | None =>
             if String.eqb "__builtins__" id then inr py_empty_dict
             else inl NameError
         end).
Proof.
  intros source env.
  assert (Hrej : forall tree, ast_parse source = inr tree ->
            _check (node_of_tree tree) = inl ValueError ->
            _safe_eval_expr source env = inr false).
  { intros tree Hp Hc. rewrite (safe_eval_parsed _ env Hp).
    unfold checked_eval. rewrite Hc. reflexivity. }
  split; [|split; [|split]].
  - apply safe_eval_returns.
  - intros e Hp. unfold _safe_eval_expr. rewrite Hp.
    now rewrite (ast_parse_exc laws _ Hp).
  - intros tree Hp. repeat split.
    + intro H. apply (Hrej tree Hp). now apply check_rejects.
    + intro H. apply (Hrej tree Hp).
      destruct H as [H|[H|H]];
        (eapply check_rejects_class; [exact H|reflexivity]).
    + intros e He. rewrite (safe_eval_parsed _ env Hp).
      destruct (checked_eval tree env) as [e'|b] eqn:E.
      * rewrite <- E. eapply except_safe_raise; [apply checked_eval_safe|exact E].
      * exfalso. unfold checked_eval in E.
        destruct (_check (node_of_tree tree)); cbn in E; [discriminate|].
        rewrite He in E. discriminate.
    + intros v e Hv Hb. rewrite (safe_eval_parsed _ env Hp).
      destruct (checked_eval tree env) as [e'|b] eqn:E.
      * rewrite <- E. eapply except_safe_raise; [apply checked_eval_safe|exact E].
      * exfalso. unfold checked_eval in E.
        destruct (_check (node_of_tree tree)); cbn in E; [discriminate|].
        rewrite Hv in E. cbn in E. rewrite Hb in E. discriminate.
  - intro id. apply load_name_eval.
Qed.

End Evaluator.

(** *** Constructs outside the allow-list are never evaluated *)

Section Rest.

Context {value : Type} (P : CPython value).
Variables r1 r2 : dict value -> dict value -> expr value -> result value.

Lemma bool_chain_ext (ev1 ev2 : expr value -> result value) (op : boolop)
    (l : list (expr value)) :
  Forall (fun e => ev1 e = ev2 e) l ->
  @bool_chain _ (with_rest P r1) ev1 op l =
  @bool_chain _ (with_rest P r2) ev2 op l.
Proof.
  induction 1 as [|x l Hx Hl IH]; [reflexivity|].
  cbn [bool_chain]. rewrite Hx. destruct l as [|y l']; [reflexivity|].
  destruct (ev2 x) as [e|v]; [reflexivity|]. cbn [Py.bind].
  change (@py_bool _ (with_rest P r1)) with (@py_bool _ (with_rest P r2)).
  destruct (@py_bool _ (with_rest P r2) v) as [e|t]; [reflexivity|].
  cbn [Py.bind]. destruct op, t; try reflexivity; exact IH.
Qed.

Lemma compare_chain_ext (ev1 ev2 : expr value -> result value)
    (cs : list (expr value)) :
  Forall (fun e => ev1 e = ev2 e) cs ->
  forall a ops,
    @compare_chain _ (with_rest P r1) ev1 cs a ops =
    @compare_chain _ (with_rest P r2) ev2 cs a ops.
Proof.
  induction 1 as [|c cs Hc Hcs IH]; intros a ops; [reflexivity|].
  cbn [compare_chain]. destruct ops as [|o ops']; [reflexivity|].
  rewrite Hc. destruct (ev2 c) as [e|b]; [reflexivity|]. cbn [Py.bind].
  change (@py_compare _ (with_rest P r1)) with (@py_compare _ (with_rest P r2)).
  destruct (@py_compare _ (with_rest P r2) o a b) as [e|r]; [reflexivity|].
  cbn [Py.bind]. destruct ops' as [|o' ops'']; [reflexivity|].
  change (@py_bool _ (with_rest P r1)) with (@py_bool _ (with_rest P r2)).
  destruct (@py_bool _ (with_rest P r2) r) as [e|t]; [reflexivity|].
  cbn [Py.bind]. destruct t; [apply IH|reflexivity].
Qed.

(** The value of a validated tree does not depend on the treatment of the
    other constructs. *)
Lemma eval_checked_rest (g l b : dict value) (e : expr value) :
  _check (node_of e) = inr tt ->
  @eval_expr _ (with_rest P r1) g l b e = @eval_expr _ (with_rest P r2) g l b e.
Proof.
  induction e as [op values IH|x1 op x2 IH1 IH2|op x IH|x ops cs IHx IHcs
                 |id ctx|v|f args|x attr ctx|x i ctx|t bd o|elts ctx|elts ctx
                 |f parts] using expr_induction;
    intros Hc; cbn [node_of] in Hc; apply check_node in Hc;
    destruct Hc as [Hcls Hch]; try discriminate Hcls.
  - inversion Hch as [|? ? _ Hvals]; subst.
    apply Forall_check_map in Hvals.
    cbn [eval_expr]. destruct values as [|v1 [|v2 rest]]; try reflexivity.
    apply bool_chain_ext.
    rewrite Forall_forall in *. intros e He. apply IH; auto.
  - inversion Hch as [|? ? H1 Hr]; subst.
    inversion Hr as [|? ? Hop Hr']; subst.
    inversion Hr' as [|? ? H2 _]; subst.
    apply check_node in Hop. destruct Hop as [Hop _].
    cbn [eval_expr]. rewrite Hop, (IH1 H1), (IH2 H2). reflexivity.
  - inversion Hch as [|? ? Hop Hr]; subst.
    inversion Hr as [|? ? H1 _]; subst.
    apply check_node in Hop. destruct Hop as [Hop _].
    cbn [eval_expr]. rewrite Hop, (IH H1). reflexivity.
  - inversion Hch as [|? ? Hx Hr]; subst.
    apply Forall_app in Hr. destruct Hr as [Hops Hcs].
    apply Forall_check_ops in Hops. apply Forall_check_map in Hcs.
    cbn [eval_expr]. rewrite Hops, (IHx Hx).
    destruct (negb (Nat.eqb (List.length ops) (List.length cs))
              || Nat.eqb (List.length ops) 0); [reflexivity|].
    destruct (@eval_expr _ (with_rest P r2) g l b x) as [e|a]; [reflexivity|].
    cbn [Py.bind]. apply compare_chain_ext.
    rewrite Forall_forall in *. intros e He. apply IHcs; auto.
  - inversion Hch as [|? ? Hctx _]; subst.
    apply check_node in Hctx. destruct Hctx as [Hctx _].
    destruct ctx; try discriminate Hctx. reflexivity.
  - reflexivity.
Qed.

(** So is the result of [_safe_eval_expr]. *)
Lemma safe_eval_rest (source : string) (env : dict value) :
  @_safe_eval_expr _ (with_rest P r1) source env =
  @_safe_eval_expr _ (with_rest P r2) source env.
Proof.
  unfold _safe_eval_expr. cbn [ast_parse with_rest].
  destruct (@ast_parse _ P source) as [e|tree]; [reflexivity|].
  f_equal.
  destruct (_check (node_of_tree tree)) as [e|[]] eqn:Hc; [reflexivity|].
  cbn [Py.bind]. fold (@eval_globals _ (with_rest P r1)).
  change (@eval_globals _ (with_rest P r1)) with (@eval_globals _ (with_rest P r2)).
  rewrite (@eval_checked_rest _ env [] tree) by (now apply check_tree).
  reflexivity.
Qed.

End Rest.

(** *** The rational object model *)

Import RationalObjects Scenarios.

Lemma rational_laws (table : list (string * expr value)) :
  CPythonLaws (python (parse_table table)).
Proof.
  constructor; cbn [ast_parse py_binop py_unaryop py_compare py_bool python].
  - induction table as [|[src tree] rest IH]; intros s e; cbn [parse_table].
    + intro H. now injection H as <-.
    + destruct (String.eqb src s); [discriminate|apply IH].
  - intros op a b e. unfold binop.
    destruct (num_of a), (num_of b); try (intro H; now injection H as <-).
    destruct op; try (intro H; now injection H as <-); try discriminate.
    + destruct (Qeq_bool q0 0); [intro H; now injection H as <-|discriminate].
    + destruct (Qeq_bool q0 0); [intro H; now injection H as <-|discriminate].
    + destruct (integral q0); [|intro H; now injection H as <-].
      destruct (Qeq_bool q 0 && (z <? 0)%Z);
        [intro H; now injection H as <-|discriminate].
  - intros op a e. unfold unaryop.
    destruct (num_of a); [|intro H; now injection H as <-].
    destruct op; try discriminate; intro H; now injection H as <-.
  - intros op a b e. unfold compare.
    destruct op; try discriminate; try (intro H; now injection H as <-);
      destruct (num_of a), (num_of b); try discriminate;
      intro H; now injection H as <-.
  - intros a e. destruct a; discriminate.
Qed.

(** The expression of the specification fires on its environment. *)
Example quiet_rule_fires :
  @_safe_eval_expr _ py "dbfs < -30 and clip_ratio < 0.01" quiet_env = inr true.
Proof. vm_compute. reflexivity. Qed.

Lemma C1_safe_eval_never_raises_witness :
  @_safe_eval_expr _ py "abs(dbfs) > 1" quiet_env = inr false /\
  @_safe_eval_expr _ py "loudness > 1" quiet_env = inr false /\
  @_safe_eval_expr _ py "dbfs <" quiet_env = inr false.
Proof.
  pose proof (@C1_safe_eval_never_raises _ py (rational_laws sources)) as H.
  split; [|split].
  - destruct (H "abs(dbfs) > 1" quiet_env) as (_ & _ & Ht & _).
    destruct (Ht _ eq_refl) as (_ & Hcall & _).
    apply Hcall. left. vm_compute. tauto.
  - destruct (H "loudness > 1" quiet_env) as (_ & _ & Ht & _).
    destruct (Ht _ eq_refl) as (_ & _ & Hev & _).
    apply (Hev NameError). reflexivity.
  - destruct (H "dbfs <" quiet_env) as (_ & Hp & _).
    apply (Hp SyntaxError). reflexivity.
Defined.

(** C1, as stated, fails in its last part: the name ["__builtins__"] is not
    bound in the environment, yet it evaluates (to the empty mapping of the
    globals), and a condition written with it fires. *)
Lemma C1_counterexample_builtins_name :
  get (@nil (string * value)) "__builtins__" = None /\
  @eval_expr _ py (@eval_globals _ py) [] [] (Name "__builtins__" Load)
    = inr VEmptyDict /\
  @_safe_eval_expr _ py "__builtins__ == __builtins__" [] = inr true.
Proof. repeat split. Qed.

End RuleEngineFacts.

(** ** Rule-based feedback rendering *)

Module TemplateFacts.

Import Ast RuleEngine Templates RuleEngineFacts.
Local Open Scope string_scope.

Lemma random_choice_in (draw : nat) (seq : list string) :
  seq <> [] ->
  exists t, random_choice draw seq = inr t /\ List.In t seq.
Proof.
  intro Hne. destruct seq as [|a l]; [contradiction|].
  unfold random_choice. eexists. split; [reflexivity|].
  apply nth_In. apply Nat.mod_upper_bound. discriminate.
Qed.

Section Rendering.

Context {value : Type} {P : CPython value}.
Hypothesis laws : CPythonLaws P.
Variable rand : nat -> nat.
Variable env : dict value.

(** The loop over the rules returns, and appends one line for each firing
    rule, in order. *)
Lemma render_rules_spec (rules : list rule) :
  forall k lines,
  exists new k',
    render_rules rand env rules k lines = inr ((lines ++ new)%list, k') /\
    Forall2 line_from new (filter (rule_fires env) rules).
Proof.
  induction rules as [|r rest IH]; intros k lines.
  - exists [], k. cbn. rewrite app_nil_r. split; [reflexivity|constructor].
  - cbn [render_rules filter]. unfold rule_fires at 1.
    destruct (String.eqb (strip (rule_if r)) "") eqn:Ec; cbn [negb andb orb].
    { apply IH. }
    destruct (text_is_empty (rule_says r)) eqn:Et; cbn [negb andb orb].
    { apply IH. }
    destruct (safe_eval_returns laws (strip (rule_if r)) env) as [fired Hf].
    rewrite Hf. cbn [Py.bind].
    destruct fired; [|apply IH].
    destruct (rule_says r) as [s|l] eqn:Es.
    + destruct (IH k (lines ++ [("- " ++ s)%string])%list) as (new & k' & Hr & Hl).
      exists (("- " ++ s) :: new), k'. split.
      * rewrite Hr. now rewrite <- app_assoc.
      * constructor; [|exact Hl]. unfold line_from. now rewrite Es.
    + assert (Hne : l <> []) by (intros ->; discriminate Et).
      destruct (random_choice_in (rand k) Hne) as (t & Ht & Hin).
      rewrite Ht. cbn [Py.bind].
      destruct (IH (S k) (lines ++ [("- " ++ t)%string])%list) as (new & k' & Hr & Hl).
      exists (("- " ++ t) :: new), k'. split.
      * rewrite Hr. now rewrite <- app_assoc.
      * constructor; [|exact Hl]. unfold line_from. rewrite Es. eauto.
Qed.

(** The loop over the sections returns, and keeps exactly the sections with
    a firing rule, in order. *)
Lemma render_sections_spec (secs : list section_t) :
  forall k kept,
  exists new,
    render_sections rand env secs k kept = inr (kept ++ new)%list /\
    Forall2 (part_from env) new
      (filter (fun sec => existsb (rule_fires env) (sec_rules sec)) secs).
Proof.
  induction secs as [|sec rest IH]; intros k kept.
  - exists []. cbn. rewrite app_nil_r. split; [reflexivity|constructor].
  - cbn [render_sections filter].
    destruct (render_rules_spec (sec_rules sec) k []) as (lines & k' & Hr & Hl).
    rewrite Hr. cbn [Py.bind app].
    assert (Hex : existsb (rule_fires env) (sec_rules sec) =
                  match lines with [] => false | _ => true end).
    { destruct (filter (rule_fires env) (sec_rules sec)) as [|r0 fs] eqn:Ef.
      - inversion Hl; subst.
        destruct (existsb (rule_fires env) (sec_rules sec)) eqn:Ex;
          [|reflexivity].
        apply existsb_exists in Ex. destruct Ex as (r & Hin & Hfire).
        assert (Hr0 : List.In r (filter (rule_fires env) (sec_rules sec)))
          by (apply filter_In; split; assumption).
        rewrite Ef in Hr0. contradiction.
      - inversion Hl; subst.
        apply existsb_exists. exists r0.
        assert (Hr0 : List.In r0 (filter (rule_fires env) (sec_rules sec)))
          by (rewrite Ef; left; reflexivity).
        apply filter_In in Hr0. exact Hr0. }
    rewrite Hex.
    destruct lines as [|ln lines'].
    + apply IH.
    + destruct (IH k' (kept ++ [(heading_of sec, ln :: lines')])%list)
        as (new & Hs & Hn).
      exists ((heading_of sec, ln :: lines') :: new). split.
      * unfold heading_of in Hs. rewrite Hs. now rewrite <- app_assoc.
      * constructor; [|exact Hn]. split; [reflexivity|exact Hl].
Qed.

(** The renderer returns a text for every template and environment: the
    parts of the sections with a firing rule, one after the other. *)
Lemma render_spec (data : option template_data) :
  exists parts,
    render_rule_based_feedback rand data env =
      inr (String.concat "" (map format_part parts)) /\
    Forall2 (part_from env) parts
      (filter (fun sec => existsb (rule_fires env) (sec_rules sec))
              match data with
              | Some {| sections := Some secs |} => secs
              | _ => []
              end).
Proof.
  destruct data as [[[secs|]]|]; cbn [render_rule_based_feedback sections].
  - destruct (render_sections_spec secs 0 []) as (parts & Hs & Hp).
    exists parts. rewrite Hs. cbn [Py.bind app]. split; [reflexivity|exact Hp].
  - exists []. split; [reflexivity|constructor].
  - exists []. split; [reflexivity|constructor].
Qed.

End Rendering.

Import RationalObjects Scenarios.

Lemma loud_rule_eval (parse : string -> result (expr value)) (q : Q) :
  parse "rms > 0.05" = inr rms_condition ->
  @_safe_eval_expr _ (python parse) "rms > 0.05" [("rms", VNum q)] =
    inr (Qgtb q 0.05).
Proof.
  intro Hp. unfold _safe_eval_expr. cbn [ast_parse python]. rewrite Hp.
  reflexivity.
Qed.

(** C8. The renderer returns a text for every template and environment: the
    parts of exactly the sections in which a rule fires, in order, each with
    one line for each of its firing rules (the text of the rule, or one entry
    of its list); a section in which no rule fires contributes nothing.  For
    the template of one section with the one rule ["rms > 0.05"] /
    ["loud enough"], the text is that section with that single line when
    [rms] is 0.1, and the empty text when [rms] is 0.01. *)
Theorem C8_rule_based_rendering :
  (forall (value : Type) (P : CPython value),
     CPythonLaws P ->
     forall (rand : nat -> nat) (env : dict value)
            (data : option template_data),
     exists parts,
       render_rule_based_feedback rand data env =
         inr (String.concat "" (map format_part parts)) /\
       Forall2 (part_from env) parts
         (filter (fun sec => existsb (rule_fires env) (sec_rules sec))
                 match data with
                 | Some {| sections := Some secs |} => secs
                 | _ => []
                 end)) /\
  (forall parse : string -> result (expr RationalObjects.value),
     parse "rms > 0.05" = inr rms_condition ->
     forall (rand : nat -> nat) (heading : option string),
       @render_rule_based_feedback _ (python parse) rand
           (loud_template heading) [("rms", VNum 0.1)] =
         inr (nl ++ "---" ++ nl ++ nl ++ "## "
                 ++ match heading with Some h => h | None => default_heading end
                 ++ nl ++ "- loud enough") /\
       @render_rule_based_feedback _ (python parse) rand
           (loud_template heading) [("rms", VNum 0.01)] = inr "").
Proof.
  split.
  - intros value P laws rand env data. now apply render_spec.
  - intros parse Hp rand heading.
    unfold render_rule_based_feedback, loud_template.
    cbn [sections render_sections render_rules sec_rules sec_heading
         rule_if rule_says strip].
    change (strip "rms > 0.05") with "rms > 0.05".
    cbn [String.eqb Ascii.eqb Bool.eqb text_is_empty orb].
    rewrite (@loud_rule_eval parse 0.1 Hp), (@loud_rule_eval parse 0.01 Hp).
    split; reflexivity.
Qed.

Lemma C8_rule_based_rendering_witness :
  (exists parts,
     @render_rule_based_feedback _ (python (parse_table rms_sources))
         (fun _ => O) (loud_template None) [("rms", VNum 0.1)] =
       inr (String.concat "" (map format_part parts))) /\
  @render_rule_based_feedback _ (python (parse_table rms_sources))
      (fun _ => O) (loud_template (Some "Volume")) [("rms", VNum 0.01)] =
    inr "".
Proof.
  destruct C8_rule_based_rendering as [Hgen Hscn].
  split.
  - destruct (Hgen _ (python (parse_table rms_sources))
                (rational_laws rms_sources) (fun _ => O)
                [("rms", VNum 0.1)] (loud_template None)) as (parts & Hr & _).
    exists parts. exact Hr.
  - destruct (Hscn (parse_table rms_sources) eq_refl (fun _ => O)
                (Some "Volume")) as [_ H].
    exact H.
Defined.

End TemplateFacts.

(** ** Floating-point helpers *)

Module FloatFacts.

Import Float.
Local Open Scope R_scope.

Lemma Rltb_true (a b : R) : Rltb a b = true <-> a < b.
Proof. unfold Rltb. destruct (Rlt_dec a b); split; auto; discriminate. Qed.

Lemma Rltb_false (a b : R) : Rltb a b = false <-> b <= a.
Proof.
  unfold Rltb. destruct (Rlt_dec a b); split; intro H.
  - discriminate H.
  - exfalso. lra.
  - lra.
  - reflexivity.
Qed.

Lemma Reqb_true (a b : R) : Reqb a b = true <-> a = b.
Proof. unfold Reqb. destruct (Req_dec_T a b); split; auto; discriminate. Qed.

Lemma Reqb_false (a b : R) : Reqb a b = false <-> a <> b.
Proof.
  unfold Reqb. destruct (Req_dec_T a b); split; auto; try discriminate.
  contradiction.
Qed.


Lemma Rabs_le_bounds (a b : R) : Rabs a <= b -> - b <= a <= b.
Proof. unfold Rabs. destruct (Rcase_abs a); lra. Qed.

Lemma np_maximum_fin (a b : R) : np_maximum (Fin a) (Fin b) = Fin (Rmax a b).
Proof.
  cbn. destruct (Rltb a b) eqn:E.
  - apply Rltb_true in E. rewrite Rmax_right; [reflexivity|lra].
  - apply Rltb_false in E. rewrite Rmax_left; [reflexivity|lra].
Qed.

Lemma Rmaxabs_cons (a : R) (l : list R) :
  Rmaxabs (a :: l) = Rmax (Rabs a) (Rmaxabs l).
Proof. reflexivity. Qed.


Lemma Rmaxabs_bound (l : list R) (r : R) : List.In r l -> Rabs r <= Rmaxabs l.
Proof.
  induction l as [|a l IH]; cbn; [contradiction|].
  intros [->|H]; [apply Rmax_l|].
  eapply Rle_trans; [apply IH, H|apply Rmax_r].
Qed.

Lemma Rmaxabs_scale (l : list R) (c : R) :
  0 <= c -> Rmaxabs (map (fun r => r * c) l) = Rmaxabs l * c.
Proof.
  intro Hc. induction l as [|a l IH]; [cbn; lra|].
  cbn [map]. rewrite !Rmaxabs_cons, IH, Rabs_mult, (Rabs_right c) by lra.
  rewrite (Rmult_comm (Rabs a) c), (Rmult_comm (Rmaxabs l) c).
  rewrite RmaxRmult by exact Hc. apply Rmult_comm.
Qed.

Lemma fold_maximum_fin (l : list R) (a : R) :
  0 <= a ->
  fold_left np_maximum (map fabs (map Fin l)) (Fin a) =
    Fin (Rmax a (Rmaxabs l)).
Proof.
  revert a. induction l as [|r l IH]; intros a Ha; cbn [map fold_left].
  - cbn. rewrite Rmax_left; [reflexivity|lra].
  - cbn [fabs]. rewrite np_maximum_fin, IH, Rmaxabs_cons.
    + now rewrite Rmax_assoc.
    + eapply Rle_trans; [exact Ha|apply Rmax_l].
Qed.

(** [np.max(np.abs(x))] of a non-empty array of finite samples. *)
Lemma np_max_abs_fin (l : list R) :
  l <> [] -> np_max (map fabs (map Fin l)) = inr (Fin (Rmaxabs l)).
Proof.
  destruct l as [|r l]; [contradiction|]. intros _.
  cbn [map np_max fabs]. rewrite fold_maximum_fin by apply Rabs_pos.
  reflexivity.
Qed.

Lemma nan_to_num_real (x : list float) :
  map nan_to_num x = map Fin (map real_of x).
Proof.
  induction x as [|a x IH]; cbn; [reflexivity|].
  rewrite IH. now destruct a.
Qed.

Lemma nan_to_num_fin (l : list R) : map nan_to_num (map Fin l) = map Fin l.
Proof. induction l; cbn; congruence. Qed.

Lemma np_clip_id (v : R) :
  -1 <= v <= 1 -> np_clip (Fin (-1)) (Fin 1) (Fin v) = Fin v.
Proof.
  intros [H1 H2]. unfold np_clip. cbn [flt].
  assert (E1 : Rltb v (-1) = false) by (apply Rltb_false; lra).
  rewrite E1. cbn [flt].
  assert (E2 : Rltb 1 v = false) by (apply Rltb_false; lra).
  now rewrite E2.
Qed.

End FloatFacts.

(** ** Normalisation for saving *)

Module SignalFacts.

Import Float Signal FloatFacts.
Local Open Scope R_scope.

Lemma scaled_within (r p : R) :
  0 < p -> Rabs r <= p -> -1 <= r * (98 / 100 / p) <= 1.
Proof.
  intros Hp Hr. apply Rabs_le_bounds.
  rewrite Rabs_mult, (Rabs_right (98 / 100 / p)).
  - apply Rle_trans with (p * (98 / 100 / p)).
    + apply Rmult_le_compat_r; [|exact Hr].
      apply Rlt_le, Rdiv_lt_0_compat; lra.
    + replace (p * (98 / 100 / p)) with (98 / 100) by (field; lra). lra.
  - apply Rle_ge, Rlt_le, Rdiv_lt_0_compat; lra.
Qed.

Lemma safe_peak_fin (rs : list R) :
  safe_peak (map Fin rs) = inr (Fin (Rmaxabs rs)).
Proof.
  destruct rs as [|r rs]; [reflexivity|].
  unfold safe_peak. cbn [map nan_to_num]. rewrite nan_to_num_fin.
  apply (@np_max_abs_fin (r :: rs)). discriminate.
Qed.

Lemma normalize_fin (x : list float) :
  x <> [] ->
  normalize_for_saving (Some x) default_target_peak =
    inr (map Fin (normalized (map real_of x))).
Proof.
  intro Hne. set (rs := map real_of x).
  assert (Hrs : rs <> []) by (destruct x; [contradiction|discriminate]).
  unfold normalize_for_saving.
  destruct x as [|a x']; [contradiction|].
  rewrite nan_to_num_real. fold rs.
  rewrite safe_peak_fin. cbn [Py.bind flt].
  unfold normalized. set (p := Rmaxabs rs).
  assert (Hbound : forall r, List.In r rs -> Rabs r <= p)
    by (intros r Hr; now apply Rmaxabs_bound).
  destruct (Rltb p (1 / 1000000)) eqn:Esmall; [reflexivity|].
  apply Rltb_false in Esmall.
  assert (Hp0 : Reqb p 0 = false) by (apply Reqb_false; lra).
  unfold fgt. cbn [flt].
  destruct (Rltb 1 p) eqn:Ebig.
  - apply Rltb_true in Ebig.
    unfold py_max, fgt. cbn [flt].
    assert (E1 : Rltb 1 (1 / 1000000) = false) by (apply Rltb_false; lra).
    rewrite E1. unfold default_target_peak, py_div.
    assert (E2 : Reqb 1 0 = false) by (apply Reqb_false; lra).
    rewrite E2. cbn [Py.bind Py.ret fdiv]. rewrite E2. cbn [Py.bind].
    unfold ret. f_equal. rewrite !map_map. apply map_ext_in. intros r Hr.
    cbn [fdiv]. rewrite Hp0. cbn [fmul].
    specialize (Hbound r Hr).
    replace (r / p * (98 / 100 / 1)) with (r * (98 / 100 / p)) by (field; lra).
    apply np_clip_id.
    apply scaled_within; [lra|exact Hbound].
  - apply Rltb_false in Ebig.
    unfold py_max, fgt. cbn [flt].
    assert (E1 : Rltb p (1 / 1000000) = false) by (apply Rltb_false; lra).
    rewrite E1. unfold default_target_peak, py_div.
    rewrite Hp0. cbn [Py.bind Py.ret fdiv]. rewrite Hp0. cbn [Py.bind].
    unfold ret. f_equal. rewrite !map_map. apply map_ext_in. intros r Hr.
    cbn [fmul]. specialize (Hbound r Hr).
    apply np_clip_id.
    apply scaled_within; [lra|exact Hbound].
Qed.





(** *** Range auto-detection of the analysis path *)

Lemma peak_or_zero_fin (rs : list R) :
  peak_or_zero (map Fin rs) = inr (Fin (Rmaxabs rs)).
Proof.
  destruct rs as [|r rs]; [reflexivity|].
  unfold peak_or_zero. cbn [map].
  apply (@np_max_abs_fin (r :: rs)). discriminate.
Qed.

Lemma Rmaxabs_div (rs : list R) (c : R) :
  0 < c -> Rmaxabs (map (fun r => r / c) rs) = Rmaxabs rs / c.
Proof.
  intro Hc. unfold Rdiv. apply Rmaxabs_scale.
  apply Rlt_le, Rinv_0_lt_compat, Hc.
Qed.

Lemma map_fdiv_fin (rs : list R) (c : R) :
  c <> 0 ->
  map (fun a => fdiv a (Fin c)) (map Fin rs) = map Fin (map (fun r => r / c) rs).
Proof.
  intro Hc. rewrite !map_map. apply map_ext. intro r. cbn [fdiv].
  apply Reqb_false in Hc. now rewrite Hc.
Qed.


(** The range auto-detection on finite samples. *)
Lemma auto_range_fin (rs : list R) :
  auto_range (map Fin rs) =
    inr (map Fin (ranged rs),
         Fin (if Rltb 1 (Rmaxabs (pcm_scaled rs)) then 1
              else Rmaxabs (pcm_scaled rs))).
Proof.
  assert (Hstage1 :
    (if fgt (Fin (Rmaxabs rs)) (Fin (15 / 10))
     then Py.bind (np_max (map fabs (map (fun a => fdiv a (Fin 32768))
                                         (map Fin rs))))
            (fun p' => ret (map (fun a => fdiv a (Fin 32768)) (map Fin rs), p'))
     else ret (map Fin rs, Fin (Rmaxabs rs))) =
    inr (map Fin (pcm_scaled rs), Fin (Rmaxabs (pcm_scaled rs)))).
  { unfold fgt, pcm_scaled. cbn [flt].
    destruct (Rltb (15 / 10) (Rmaxabs rs)) eqn:E; [|reflexivity].
    apply Rltb_true in E.
    rewrite map_fdiv_fin by lra.
    rewrite np_max_abs_fin; [reflexivity|].
    destruct rs; [cbn in E; lra|discriminate]. }
  unfold auto_range. rewrite peak_or_zero_fin. cbn [Py.bind].
  rewrite Hstage1. cbn [Py.bind].
  unfold fgt, ranged. cbn [flt].
  destruct (Rltb 1 (Rmaxabs (pcm_scaled rs))) eqn:E; [|reflexivity].
  apply Rltb_true in E. now rewrite map_fdiv_fin by lra.
Qed.


(** A buffer with raw peak 1.2 is rescaled by its peak, to peak 1. *)
Example raw_peak_1_2 :
  Rmaxabs [12 / 10; - (6 / 10)] = 12 / 10 /\
  exists x' p,
    auto_range [Fin (12 / 10); Fin (- (6 / 10))] = inr (map Fin x', Fin p) /\
    Rmaxabs x' = 1.
Proof.
  assert (H0 : Rmaxabs [12 / 10; - (6 / 10)] = 12 / 10).
  { cbn. rewrite Rabs_Ropp, !Rabs_right by lra.
    rewrite (Rmax_left (6 / 10) 0), Rmax_left; lra. }
  split; [exact H0|].
  exists (ranged [12 / 10; - (6 / 10)]). eexists.
  split; [apply (auto_range_fin [12 / 10; - (6 / 10)])|].
  unfold ranged, pcm_scaled. rewrite H0.
  assert (E1 : Rltb (15 / 10) (12 / 10) = false) by (apply Rltb_false; lra).
  assert (E2 : Rltb 1 (12 / 10) = true) by (apply Rltb_true; lra).
  rewrite E1, H0, E2. rewrite Rmaxabs_div, H0 by lra. field.
Qed.

(** *** Signal metrics of the analysis path *)

(** C2, at a buffer that holds one NaN sample: the analysis path does not
    replace the NaN, and the peak, the RMS and the dBFS value it returns are
    NaN; the crest factor is the infinite value although the RMS is not 0. *)
Theorem C2_nan_buffer_metrics :
  forall (sr : Z) (auto_tune : bool) (ui_silence_thresh ui_clip_level : float),
  exists m,
    compute_signal_metrics [NaN] sr auto_tune ui_silence_thresh ui_clip_level
      = inr m /\
    peak m = NaN /\ rms m = NaN /\ dbfs m = NaN /\
    crest_factor m = PInf /\ rms m <> Fin 0.
Proof.
  intros sr auto_tune u1 u2.
  eexists. split; [reflexivity|].
  cbn. repeat split. discriminate.
Qed.

(** The same buffer through the normalisation for saving, which does
    replace the NaN. *)
Example nan_buffer_saved :
  normalize_for_saving (Some [NaN]) default_target_peak = inr [Fin 0].
Proof.
  rewrite normalize_fin by discriminate.
  cbn [map real_of]. unfold normalized.
  assert (E : Rltb (Rmaxabs [0]) (1 / 1000000) = true).
  { apply Rltb_true. cbn. rewrite Rabs_R0, Rmax_left; lra. }
  now rewrite E.
Qed.

(** The automatic silence threshold is a finite value between 0.01 and 0.08,
    whatever the noise floor is. *)
Lemma auto_silence_range (noise_floor : float) :
  exists t,
    py_max (Fin (1 / 100)) (py_min (Fin (8 / 100)) (fmul noise_floor (Fin 3)))
      = Fin t /\
    1 / 100 <= t <= 8 / 100.
Proof.
  generalize (fmul noise_floor (Fin 3)). intro z.
  assert (E0 : Rltb (1 / 100) (8 / 100) = true) by (apply Rltb_true; lra).
  unfold py_max, py_min, fgt.
  destruct z as [v| | |]; cbn [flt].
  - destruct (Rltb v (8 / 100)) eqn:E1; cbn [flt].
    + apply Rltb_true in E1.
      destruct (Rltb (1 / 100) v) eqn:E2.
      * apply Rltb_true in E2. exists v. split; [reflexivity|lra].
      * exists (1 / 100). split; [reflexivity|lra].
    + rewrite E0. exists (8 / 100). split; [reflexivity|lra].
  - rewrite E0. exists (8 / 100). split; [reflexivity|lra].
  - exists (1 / 100). split; [reflexivity|lra].
  - rewrite E0. exists (8 / 100). split; [reflexivity|lra].
Qed.

Lemma thresholds_auto (x : list float) (sr : Z) (u1 u2 : float) :
  exists t,
    thresholds x sr true u1 u2 = (Fin t, Fin (98 / 100)) /\
    1 / 100 <= t <= 8 / 100.
Proof.
  unfold thresholds.
  set (nf := if (0 <? _)%Z then _ else _).
  destruct (auto_silence_range nf) as (t & Ht & Hr).
  exists t. rewrite Ht. split; [reflexivity|exact Hr].
Qed.

Lemma Rmaxabs_zeros (n : nat) : Rmaxabs (repeat 0 n) = 0.
Proof.
  induction n as [|n IH]; [reflexivity|].
  cbn [repeat]. rewrite Rmaxabs_cons, IH, Rabs_R0. apply Rmax_left. lra.
Qed.

Lemma zeros_fin (n : nat) : repeat (Fin 0) n = map Fin (repeat 0 n).
Proof. now rewrite map_repeat. Qed.

Lemma sum_squares_zeros (n : nat) :
  np_sum (map (fun a => fmul a a) (repeat (Fin 0) n)) = Fin 0.
Proof.
  unfold np_sum. induction n as [|n IH]; [reflexivity|].
  cbn [repeat map fold_left fmul fadd].
  replace (0 + 0 * 0) with 0 by ring. exact IH.
Qed.

Lemma INR_pos (n : nat) : (0 < n)%nat -> Reqb (INR n) 0 = false.
Proof.
  intro H. apply Reqb_false. apply not_0_INR. lia.
Qed.

Lemma filter_none {X} (p : X -> bool) (l : list X) :
  (forall a, List.In a l -> p a = false) -> filter p l = [].
Proof.
  induction l as [|a l IH]; intro H; [reflexivity|].
  cbn [filter]. rewrite (H a (or_introl eq_refl)). apply IH.
  intros b Hb. apply H. now right.
Qed.

Lemma filter_all {X} (p : X -> bool) (l : list X) :
  (forall a, List.In a l -> p a = true) -> filter p l = l.
Proof.
  induction l as [|a l IH]; intro H; [reflexivity|].
  cbn [filter]. rewrite (H a (or_introl eq_refl)). f_equal. apply IH.
  intros b Hb. apply H. now right.
Qed.




(** The all-zero buffer, with automatic thresholds: RMS 0, the dBFS floor
    [20 * log10(1e-12)], no clipped sample, every sample silent. *)
Lemma zero_buffer_metrics (n : nat) (sr : Z) (u1 u2 : float) :
  (0 < n)%nat ->
  compute_signal_metrics (repeat (Fin 0) n) sr true u1 u2 =
    inr {| peak := Fin 0;
           rms := Fin 0;
           dbfs := Fin (20 * (ln (1 / 10 ^ 12) / ln 10));
           clip_ratio := Fin 0;
           silence_ratio := Fin 1;
           crest_factor := PInf |}.
Proof.
  intro Hn. unfold compute_signal_metrics.
  destruct (thresholds_auto (repeat (Fin 0) n) sr u1 u2) as (t & -> & Ht).
  rewrite zeros_fin, auto_range_fin. cbn [Py.bind fst].
  assert (Hr : ranged (repeat 0 n) = repeat 0 n).
  { unfold ranged, pcm_scaled. rewrite Rmaxabs_zeros.
    assert (E1 : Rltb (15 / 10) 0 = false) by (apply Rltb_false; lra).
    assert (E2 : Rltb 1 0 = false) by (apply Rltb_false; lra).
    now rewrite E1, Rmaxabs_zeros, E2. }
  rewrite Hr, peak_or_zero_fin, Rmaxabs_zeros. cbn [Py.bind].
  rewrite <- zeros_fin.
  destruct n as [|n]; [lia|].
  set (x := repeat (Fin 0) (S n)).
  assert (Hin : forall a, List.In a x -> a = Fin 0)
    by (intros a Ha; now apply repeat_spec in Ha).
  assert (Hrms : np_sqrt (np_mean (map (fun a => fmul a a) x)) = Fin 0).
  { unfold np_mean. subst x. rewrite sum_squares_zeros, length_map, repeat_length.
    cbn [fdiv]. rewrite INR_pos by lia. cbn [np_sqrt].
    replace (0 / INR (S n)) with 0 by (unfold Rdiv; ring).
    assert (E : Rltb 0 0 = false) by (apply Rltb_false; lra).
    rewrite E, sqrt_0. reflexivity. }
  assert (Hclip : fraction (fun a => fgt (fabs a) (Fin (98 / 100))) x = Fin 0).
  { unfold fraction. rewrite filter_none.
    - subst x. rewrite repeat_length. cbn [List.length fdiv].
      rewrite INR_pos by lia. f_equal. cbn [INR]. unfold Rdiv. ring.
    - intros a Ha. rewrite (Hin a Ha). unfold fgt. cbn [fabs flt].
      apply Rltb_false. rewrite Rabs_R0. lra. }
  assert (Hsil : fraction (fun a => flt (fabs a) (Fin t)) x = Fin 1).
  { unfold fraction. rewrite filter_all.
    - subst x. rewrite repeat_length. cbn [fdiv].
      rewrite INR_pos by lia. f_equal. field. apply not_0_INR. lia.
    - intros a Ha. rewrite (Hin a Ha). cbn [fabs flt].
      apply Rltb_true. rewrite Rabs_R0. lra. }
  change (match x with [] => Fin 0 | _ :: _ =>
            np_sqrt (np_mean (map (fun a => fmul a a) x)) end)
    with (np_sqrt (np_mean (map (fun a => fmul a a) x))).
  change (match x with [] => Fin 0 | _ :: _ =>
            fraction (fun a => fgt (fabs a) (Fin (98 / 100))) x end)
    with (fraction (fun a => fgt (fabs a) (Fin (98 / 100))) x).
  change (match x with [] => Fin 1 | _ :: _ =>
            fraction (fun a => flt (fabs a) (Fin t)) x end)
    with (fraction (fun a => flt (fabs a) (Fin t)) x).
  rewrite Hrms, Hclip, Hsil.
  unfold py_max, fgt. cbn [flt].
  assert (E0 : Rltb 0 0 = false) by (apply Rltb_false; lra).
  assert (Ee : Rltb 0 (1 / 10 ^ 12) = true).
  { apply Rltb_true, Rdiv_lt_0_compat; [lra|apply pow_lt; lra]. }
  rewrite E0. cbn [flt]. rewrite Ee. cbn [Py.bind np_log10].
  assert (Ee1 : Rltb (1 / 10 ^ 12) 0 = false).
  { apply Rltb_false. apply Rltb_true in Ee. lra. }
  assert (Ee2 : Reqb (1 / 10 ^ 12) 0 = false).
  { apply Reqb_false. apply Rltb_true in Ee. lra. }
  rewrite Ee1, Ee2. reflexivity.
Qed.

(** The scenario of the specification: 16000 zero samples at 16 kHz. *)
Example zero_second_metrics (u1 u2 : float) :
  exists m,
    compute_signal_metrics (repeat (Fin 0) 16000) 16000 true u1 u2 = inr m /\
    rms m = Fin 0 /\ dbfs m = Fin (20 * (ln (1 / 10 ^ 12) / ln 10)) /\
    clip_ratio m = Fin 0 /\ silence_ratio m = Fin 1.
Proof.
  eexists. split; [apply zero_buffer_metrics; now apply Nat.ltb_lt|].
  repeat split.
Qed.

End SignalFacts.

(** ** Framing of the spectral analysis *)

Module FramingFacts.

Import Spectral.
Local Open Scope nat_scope.

Lemma n_frames_long (len : nat) :
  1024 <= len ->
  Z.to_nat (1 + Z.max 0 ((Z.of_nat len - 1024) / 512)) = 1 + (len - 1024) / 512.
Proof.
  intro H.
  assert (Hq : (0 <= (Z.of_nat len - 1024) / 512)%Z) by (apply Z.div_pos; lia).
  rewrite Z.max_r by exact Hq.
  rewrite Z2Nat.inj_add by lia. f_equal.
  replace (Z.of_nat len - 1024)%Z with (Z.of_nat (len - 1024)) by lia.
  change 512%Z with (Z.of_nat 512). rewrite <- Nat2Z.inj_div. apply Nat2Z.id.
Qed.

Lemma n_frames_short (len : nat) :
  len < 1024 ->
  Z.to_nat (1 + Z.max 0 ((Z.of_nat len - 1024) / 512)) = 1.
Proof.
  intro H.
  assert (((Z.of_nat len - 1024) / 512 < 0)%Z)
    by (apply Z.div_lt_upper_bound; lia).
  lia.
Qed.

Section Frames.

Variable A : Type.
Variable zero : A.

Lemma n_frames_pos (len : nat) : (1 <= n_frames len)%Z.
Proof. unfold n_frames. lia. Qed.

Lemma framing_eq (x : list A) :
  framing zero x = (x, Z.to_nat (n_frames (List.length x))).
Proof.
  unfold framing. pose proof (n_frames_pos (List.length x)) as H.
  destruct (Z.leb_spec (n_frames (List.length x)) 0); [lia|reflexivity].
Qed.

(** The number of frames, as a natural number. *)
Lemma frame_count (x : list A) :
  snd (framing zero x) =
    if List.length x <? n_fft then 1
    else 1 + (List.length x - n_fft) / hop.
Proof.
  rewrite framing_eq. cbn [snd]. unfold n_frames, n_fft, hop.
  change (Z.of_nat 1024) with 1024%Z. change (Z.of_nat 512) with 512%Z.
  destruct (Nat.ltb_spec (List.length x) 1024);
    [now apply n_frames_short|now apply n_frames_long].
Qed.

Lemma frame_at_length (x : list A) (i : nat) :
  List.length (frame_at zero x i) = n_fft.
Proof.
  unfold frame_at.
  set (frame := firstn n_fft (skipn (i * hop) x)).
  destruct (Nat.ltb_spec (List.length frame) n_fft) as [H|H].
  - unfold np_pad. rewrite length_app, repeat_length. lia.
  - assert (List.length frame <= n_fft) by (subst frame; apply firstn_le_length).
    lia.
Qed.

(** Position [k] of frame [i] holds sample [i * hop + k], or the padding
    value past the end of the samples. *)
Lemma frame_at_nth (x : list A) (i k : nat) :
  k < n_fft -> nth k (frame_at zero x i) zero = nth (i * hop + k) x zero.
Proof.
  intro Hk. unfold frame_at.
  set (frame := firstn n_fft (skipn (i * hop) x)).
  assert (Hnth : forall d, nth k frame d = nth (i * hop + k) x d).
  { intro d. subst frame. rewrite nth_firstn.
    destruct (Nat.ltb_spec k n_fft); [|lia]. now rewrite nth_skipn. }
  destruct (Nat.ltb_spec (List.length frame) n_fft) as [H|H];
    [|apply Hnth].
  unfold np_pad.
  destruct (Nat.lt_ge_cases k (List.length frame)) as [Hin|Hout].
  - rewrite app_nth1 by exact Hin. apply Hnth.
  - rewrite app_nth2 by exact Hout. rewrite nth_repeat.
    rewrite <- Hnth. symmetry. now apply nth_overflow.
Qed.

(** A sample lies in some frame exactly when its index is below the end of
    the last window. *)
Lemma covered_iff (x : list A) (j : nat) :
  covered zero x j = true <->
  j < (snd (framing zero x) - 1) * hop + n_fft.
Proof.
  unfold covered. rewrite existsb_exists.
  assert (Hn : 1 <= snd (framing zero x)).
  { rewrite framing_eq. cbn [snd].
    pose proof (n_frames_pos (List.length x)). lia. }
  set (n := snd (framing zero x)) in *.
  unfold in_frame, hop, n_fft. split.
  - intros (i & Hi & Hf). apply in_seq in Hi.
    apply andb_true_iff in Hf. destruct Hf as [H1 H2].
    apply Nat.leb_le in H1. apply Nat.ltb_lt in H2. nia.
  - intro Hj. exists (Nat.min (n - 1) (j / 512)).
    pose proof (Nat.div_mod_eq j 512) as Hd.
    pose proof (Nat.mod_upper_bound j 512 ltac:(discriminate)) as Hm.
    split.
    + apply in_seq. lia.
    + apply andb_true_iff.
      destruct (Nat.min_spec (n - 1) (j / 512)) as [[Hlt E]|[Hle E]];
        rewrite E; split;
        try (apply Nat.leb_le; lia); apply Nat.ltb_lt; lia.
Qed.

Lemma cap_firstn (x : list A) (sr : Z) :
  cap x sr = firstn (Z.to_nat (sr * max_seconds)) x.
Proof.
  unfold cap. destruct (Z.gtb_spec (Z.of_nat (List.length x)) (sr * max_seconds)).
  - reflexivity.
  - symmetry. apply firstn_all2. lia.
Qed.

Lemma frames_short (x : list A) :
  List.length x < n_fft ->
  frames zero x = [x ++ repeat zero (n_fft - List.length x)].
Proof.
  intro H. unfold frames.
  pose proof (frame_count x) as Hn. rewrite framing_eq in *. cbn [snd] in Hn.
  rewrite Hn. destruct (Nat.ltb_spec (List.length x) n_fft); [|lia].
  cbn [seq map]. unfold frame_at. cbn [Nat.mul skipn].
  rewrite firstn_all2 by lia.
  destruct (Nat.ltb_spec (List.length x) n_fft); [reflexivity|lia].
Qed.

Lemma tail_dropped (len : nat) :
  n_fft <= len ->
  len - ((1 + (len - n_fft) / hop - 1) * hop + n_fft) = (len - n_fft) mod hop.
Proof.
  unfold n_fft, hop. intro H.
  pose proof (Nat.div_mod_eq (len - 1024) 512). lia.
Qed.

(** The frames taken from the first [10 * sr] samples of [x]. *)
Lemma framing_spec :
  forall (x : list A) (sr : Z),
    (0 < sr)%Z ->
    let y := cap x sr in
    let n := snd (framing zero y) in
    y = firstn (Z.to_nat (sr * 10)) x /\
    frames zero y = map (frame_at zero y) (seq 0 n) /\
    n = (if List.length y <? 1024 then 1
         else 1 + (List.length y - 1024) / 512) /\
    (forall i, List.length (frame_at zero y i) = 1024) /\
    (forall i k, k < 1024 ->
       nth k (frame_at zero y i) zero = nth (i * 512 + k) y zero) /\
    (forall j, covered zero y j = true <-> j < (n - 1) * 512 + 1024) /\
    (List.length y < 1024 ->
       frames zero y = [y ++ repeat zero (1024 - List.length y)]) /\
    (1024 <= List.length y ->
       (forall j, j < List.length y ->
          (covered zero y j = false <-> (n - 1) * 512 + 1024 <= j)) /\
       List.length y - ((n - 1) * 512 + 1024) = (List.length y - 1024) mod 512).
Proof.
  intros x sr Hsr y n.
  assert (Hn : n = (if List.length y <? 1024 then 1
                    else 1 + (List.length y - 1024) / 512))
    by apply frame_count.
  split; [apply cap_firstn|].
  split; [unfold frames; subst n; now rewrite framing_eq|].
  split; [exact Hn|].
  split; [intro i; apply frame_at_length|].
  split; [intros i k Hk; now apply frame_at_nth|].
  split; [intro j; apply covered_iff|].
  split; [apply frames_short|].
  intro Hlong. split.
  - intros j Hj. rewrite <- Bool.not_true_iff_false, covered_iff.
    fold n. unfold hop, n_fft. lia.
  - rewrite Hn. destruct (Nat.ltb_spec (List.length y) 1024); [lia|].
    now apply tail_dropped.
Qed.

End Frames.

End FramingFacts.

(** ** Band ratios of the spectral analysis *)

Module SpectralFacts.

Import Float Spectral FloatFacts FramingFacts.
Local Open Scope R_scope.

Lemma Rsum_cons (a : R) (l : list R) : Rsum (a :: l) = a + Rsum l.
Proof. reflexivity. Qed.

Lemma Rsum_app (l1 l2 : list R) : Rsum (l1 ++ l2) = Rsum l1 + Rsum l2.
Proof.
  induction l1 as [|a l IH].
  - cbn [app]. change (Rsum []) with 0. lra.
  - cbn [app]. rewrite !Rsum_cons, IH. lra.
Qed.














(** *** A non-silent input with an empty spectrum *)





Lemma INR_1024 : INR 1024 = 1024.
Proof. rewrite INR_IZR_INZ. reflexivity. Qed.

(** The Hann window is 0 at its first point. *)
Lemma hanning_first :
  exists rest, hanning n_fft = 0 :: rest /\ List.length rest = 1023%nat.
Proof.
  set (h := fun j : nat =>
              1 / 2 + 1 / 2 * cos (PI * (1 - INR 1024 + 2 * INR j) / (INR 1024 - 1))).
  exists (map h (seq 1 1023)). split.
  - change (hanning n_fft) with (map h (seq 0 1024)).
    change (seq 0 1024) with (0%nat :: seq 1 1023). cbn [map]. f_equal.
    unfold h. rewrite INR_1024. change (INR 0) with 0.
    replace (PI * (1 - 1024 + 2 * 0) / (1024 - 1)) with (- PI) by field.
    rewrite cos_neg, cos_PI. lra.
  - now rewrite length_map, length_seq.
Qed.




(** *** Frames of the spectrogram *)

Lemma hanning_length : List.length (hanning n_fft) = 1024%nat.
Proof. destruct hanning_first as (rest & -> & Hr). cbn. now rewrite Hr. Qed.

(** C3 (amended). The analysis works on the first [10 * sr] samples, under a
    Hann window of 1024 points, in windows of 1024 samples that start every
    512 samples.  When fewer than 1024 samples are left there is one frame,
    the samples padded with zeros.  Otherwise the number of frames is
    [1 + (len - 1024) // 512]: every frame is a full window, no frame is
    padded, and the [(len - 1024) mod 512] samples behind the last full
    window are in no frame.  A sample is in some frame exactly when its index
    is below the end of the last window. *)
Theorem C3_framing_drops_partial_tail :
  forall (x : list R) (sr : Z),
    (0 < sr)%Z ->
    let y := cap x sr in
    let n := snd (framing 0 y) in
    y = firstn (Z.to_nat (sr * 10)) x /\
    List.length (hanning n_fft) = 1024%nat /\
    spectra y =
      map (fun frame => rfft_abs (windowed frame (hanning n_fft)))
          (map (frame_at 0 y) (seq 0 n)) /\
    n = (if (List.length y <? 1024)%nat then 1%nat
         else (1 + (List.length y - 1024) / 512)%nat) /\
    (forall i, List.length (frame_at 0 y i) = 1024%nat) /\
    (forall i k, (k < 1024)%nat ->
       nth k (frame_at 0 y i) 0 = nth (i * 512 + k) y 0) /\
    (forall j, covered 0 y j = true <-> (j < (n - 1) * 512 + 1024)%nat) /\
    ((List.length y < 1024)%nat ->
       frames 0 y = [y ++ repeat 0 (1024 - List.length y)]) /\
    ((1024 <= List.length y)%nat ->
       (forall j, (j < List.length y)%nat ->
          (covered 0 y j = false <-> ((n - 1) * 512 + 1024 <= j)%nat)) /\
       (List.length y - ((n - 1) * 512 + 1024))%nat =
         ((List.length y - 1024) mod 512)%nat).
Proof.
  intros x sr Hsr y n.
  destruct (framing_spec 0 x Hsr)
    as (H1 & H2 & H3 & H4 & H5 & H6 & H7 & H8).
  fold y in H1, H2, H3, H4, H5, H6, H7, H8. fold n in H2, H3, H6, H8.
  split; [exact H1|]. split; [exact hanning_length|].
  split; [unfold spectra; now rewrite H2|].
  split; [exact H3|]. split; [exact H4|]. split; [exact H5|].
  split; [exact H6|]. split; [exact H7|exact H8].
Qed.

Lemma short_tail_capped : cap short_tail 16000 = short_tail.
Proof.
  unfold cap. unfold short_tail at 1. rewrite repeat_length. reflexivity.
Qed.

(** C3, as stated, fails: of 1025 samples only one frame is taken, the first
    1024 samples, without padding; the last sample is in no frame. *)
Lemma C3_counterexample_last_sample_dropped :
  short_tail <> [] /\
  List.length (cap short_tail 16000) = 1025%nat /\
  frames 0 (cap short_tail 16000) = [firstn 1024 short_tail] /\
  covered 0 (cap short_tail 16000) 1024 = false.
Proof.
  rewrite short_tail_capped.
  assert (Hlen : List.length short_tail = 1025%nat) by apply repeat_length.
  assert (Hn : snd (framing 0 short_tail) = 1%nat).
  { rewrite frame_count, Hlen. reflexivity. }
  split; [discriminate|]. split; [exact Hlen|]. split.
  - unfold frames. rewrite framing_eq in *. cbn [snd] in Hn. rewrite Hn.
    cbn [seq map]. unfold frame_at. cbn [Nat.mul skipn].
    rewrite length_firstn, Hlen. reflexivity.
  - apply Bool.not_true_iff_false. rewrite covered_iff, Hn.
    unfold hop, n_fft. cbn. lia.
Qed.

Lemma C3_framing_drops_partial_tail_witness :
  (forall j, covered 0 (cap two_frames 16000) j = true <-> (j < 1536)%nat) /\
  List.length (spectra (cap two_frames 16000)) = 2%nat.
Proof.
  destruct (@C3_framing_drops_partial_tail two_frames 16000 ltac:(reflexivity))
    as (_ & _ & Hs & Hn & _ & _ & Hc & _).
  assert (Hcap : cap two_frames 16000 = two_frames).
  { unfold cap. unfold two_frames at 1. rewrite repeat_length. reflexivity. }
  rewrite Hcap in *.
  assert (Hlen : List.length two_frames = 2000%nat) by apply repeat_length.
  rewrite Hlen in Hn.
  change ((if (2000 <? 1024)%nat then 1 else 1 + (2000 - 1024) / 512)%nat)
    with 2%nat in Hn.
  split.
  - intro j. rewrite Hc, Hn. reflexivity.
  - rewrite Hs, !length_map, length_seq. exact Hn.
Defined.

End SpectralFacts.

(** ** The hot-reloading caches *)

Module CacheFacts.

Import Templates Caches.

Lemma Qeq_bool_refl (m : Q) : Qeq_bool m m = true.
Proof. apply Qeq_bool_iff. reflexivity. Qed.

Lemma same_mtime_eq (cached : option Q) (m : Q) :
  same_mtime cached m = true <-> exists m', cached = Some m' /\ (m' == m)%Q.
Proof.
  destruct cached as [m'|]; cbn.
  - rewrite Qeq_bool_iff. split.
    + intros H. exists m'. now split.
    + intros (m'' & E & H). now inversion E; subst.
  - split; [discriminate | intros (m' & E & _); discriminate E].
Qed.

Lemma tpl_sound_more (calls more : list (file_state (option template_data)))
    (c : tpl_cache) :
  tpl_sound calls c -> tpl_sound (calls ++ more) c.
Proof.
  unfold tpl_sound.
  destruct (tpl_mtime c), (tpl_data c); try easy.
  intros (fs & loaded & Hin & H). exists fs, loaded. split; [|exact H].
  apply in_or_app. now left.
Qed.

Lemma tpl_sound_step (calls : list (file_state (option template_data)))
    (c : tpl_cache) (fs : file_state (option template_data)) :
  tpl_sound calls c ->
  tpl_sound (calls ++ [fs]) (snd (load_templates_if_changed c fs)).
Proof.
  intros Hc. unfold load_templates_if_changed.
  destruct (stat fs) as [m|] eqn:Es; [|exact I].
  destruct (same_mtime (tpl_mtime c) m) eqn:Em; cbn [negb snd].
  - now apply tpl_sound_more.
  - destruct (content fs) as [loaded|] eqn:Ec; [|exact I].
    cbn. exists fs, loaded. repeat split; auto.
    apply in_or_app. right. now left.
Qed.

Lemma tpl_after_sound (calls : list (file_state (option template_data))) :
  tpl_sound calls (tpl_after _TPL_CACHE calls).
Proof.
  induction calls as [|fs calls IH] using rev_ind; [exact I|].
  unfold tpl_after in *. rewrite fold_left_app. cbn [fold_left].
  now apply tpl_sound_step.
Qed.

(** X1. Whatever calls were made before, [load_templates_if_changed] returns
    [None] when the file cannot be examined; otherwise it returns a document
    that was read (now or by an earlier call) while the file had its current
    modification time, or [None] when the file has just been read without
    success. *)
Theorem templates_served_are_current
    (calls : list (file_state (option template_data)))
    (fs : file_state (option template_data)) :
  let r := fst (load_templates_if_changed (tpl_after _TPL_CACHE calls) fs) in
  match stat fs with
  | None => r = None
  | Some m =>
      (exists fs' m' loaded,
          List.In fs' (calls ++ [fs]) /\ stat fs' = Some m' /\ (m' == m)%Q /\
          content fs' = Some loaded /\ r = Some (or_empty loaded))
      \/ (r = None /\ content fs = None)
  end.
Proof.
  cbv zeta. pose proof (tpl_after_sound calls) as Hs.
  unfold load_templates_if_changed.
  destruct (stat fs) as [m|] eqn:Es; [|reflexivity].
  destruct (same_mtime (tpl_mtime (tpl_after _TPL_CACHE calls)) m) eqn:Em;
    cbn [negb fst].
  - left. apply same_mtime_eq in Em. destruct Em as (m' & Ec & Hm).
    unfold tpl_sound in Hs. rewrite Ec in Hs.
    destruct (tpl_data (tpl_after _TPL_CACHE calls)) as [d|]; [|easy].
    destruct Hs as (fs' & loaded & Hin & Hst & Hco & Hd).
    exists fs', m', loaded. repeat split; auto.
    + apply in_or_app. now left.
    + now rewrite Hd.
  - destruct (content fs) as [loaded|] eqn:Ec.
    + left. exists fs, m, loaded.
      repeat split; auto; try reflexivity. apply in_or_app. right. now left.
    + right. now split.
Qed.

Lemma voicy_sound_more (calls more : list (file_state (list episode)))
    (c : voicy_cache) :
  voicy_sound calls c -> voicy_sound (calls ++ more) c.
Proof.
  intros [H|(m & fs & Hm & Hin & H)]; [now left|right].
  exists m, fs. repeat split; try easy. apply in_or_app. now left.
Qed.

Lemma voicy_sound_step (calls : list (file_state (list episode)))
    (c : voicy_cache) (fs : file_state (list episode)) :
  voicy_sound calls c ->
  voicy_sound (calls ++ [fs]) (snd (load_voicy_episodes c fs)).
Proof.
  intros Hc. unfold load_voicy_episodes.
  destruct (stat fs) as [m|] eqn:Es; [|now apply voicy_sound_more].
  destruct (same_mtime (voicy_mtime c) m) eqn:Em; cbn [snd].
  - now apply voicy_sound_more.
  - destruct (content fs) as [eps|] eqn:Ec; [|now left].
    right. exists m, fs. cbn. repeat split; auto.
    apply in_or_app. right. now left.
Qed.

Lemma voicy_after_sound (calls : list (file_state (list episode))) :
  voicy_sound calls (voicy_after _VOICY_CACHE calls).
Proof.
  induction calls as [|fs calls IH] using rev_ind; [now left|].
  unfold voicy_after in *. rewrite fold_left_app. cbn [fold_left].
  now apply voicy_sound_step.
Qed.

(** X2. Whatever calls were made before, the list that [load_voicy_episodes]
    returns is empty, or it is the list that was read (now or by an earlier
    call) while the file had its current modification time.  It is empty
    whenever the file cannot be examined. *)
Theorem episodes_served_are_current
    (calls : list (file_state (list episode)))
    (fs : file_state (list episode)) :
  let r := fst (load_voicy_episodes (voicy_after _VOICY_CACHE calls) fs) in
  match stat fs with
  | None => r = []
  | Some m =>
      r = [] \/
      exists fs' m',
        List.In fs' (calls ++ [fs]) /\ stat fs' = Some m' /\ (m' == m)%Q /\
        content fs' = Some r
  end.
Proof.
  cbv zeta. pose proof (voicy_after_sound calls) as Hs.
  unfold load_voicy_episodes.
  destruct (stat fs) as [m|] eqn:Es; [|reflexivity].
  destruct (same_mtime (voicy_mtime (voicy_after _VOICY_CACHE calls)) m) eqn:Em;
    cbn [fst].
  - destruct Hs as [H|(m' & fs' & Hm & Hin & Hst & Hco)]; [now left|right].
    apply same_mtime_eq in Em. destruct Em as (m'' & Ec & Hq).
    rewrite Hm in Ec. inversion Ec; subst m''.
    exists fs', m'. repeat split; auto. apply in_or_app. now left.
  - destruct (content fs) as [eps|] eqn:Ec; [right|now left].
    exists fs, m.
    repeat split; auto; try reflexivity. apply in_or_app. right. now left.
Qed.





End CacheFacts.

(** ** The recommended episode *)

Module VoicyFacts.

Import Caches Voicy Float.
Local Open Scope string_scope.

Lemma get_nodup {V} (d : dict V) (k : string) (v : V) :
  NoDup (map fst d) -> List.In (k, v) d -> get d k = Some v.
Proof.
  induction d as [|[k' v'] d IH]; cbn; [easy|].
  intros Hn [E|Hin].
  - inversion E; subst. now rewrite String.eqb_refl.
  - inversion Hn as [|? ? Hk Hn']; subst.
    destruct (String.eqb k' k) eqn:Ek.
    + apply String.eqb_eq in Ek. subst k'. exfalso. apply Hk.
      change k with (fst (k, v)). now apply in_map.
    + now apply IH.
Qed.

Lemma numeric_feats_key (features : dict feature_value) (k : string) :
  List.In k (map fst (numeric_feats features)) -> List.In k (map fst features).
Proof.
  induction features as [|[k' v'] f IH]; cbn; [easy|].
  unfold numeric_feats in *. cbn. rewrite map_app, in_app_iff.
  intros [H|H]; [|right; now apply IH].
  destruct v'; cbn in H; try easy. destruct H as [H|[]]. now left.
Qed.

Lemma numeric_feats_nodup (features : dict feature_value) :
  NoDup (map fst features) -> NoDup (map fst (numeric_feats features)).
Proof.
  induction features as [|[k v] f IH]; cbn; [constructor|].
  intros Hn. inversion Hn as [|? ? Hk Hn']; subst.
  unfold numeric_feats in *. cbn.
  destruct v; cbn; try now apply IH.
  constructor; [|now apply IH].
  intros Hin. apply Hk. now apply numeric_feats_key.
Qed.

Lemma numeric_feats_in (features : dict feature_value) (k : string) (q : Q) :
  List.In (k, q) (numeric_feats features) <->
  List.In (k, Number q) features.
Proof.
  unfold numeric_feats. rewrite in_flat_map. split.
  - intros ([k' v'] & Hin & H). destruct v'; cbn in H; try easy.
    destruct H as [H|[]]. now inversion H; subst.
  - intros H. exists (k, Number q). split; [exact H|now left].
Qed.

Lemma min_from_spec (d : dict Q) :
  NoDup (map fst d) ->
  forall pending l1 best v l2,
    d = ((l1 ++ (best, v) :: l2) ++ pending)%list ->
    Forall (fun kv => (v < snd kv)%Q) l1 ->
    Forall (fun kv => (v <= snd kv)%Q) l2 ->
    exists v', first_least d (min_from d best (map fst pending)) v'.
Proof.
  intros Hn pending.
  induction pending as [|[k vk] pending IH]; intros l1 best v l2 Hd H1 H2.
  - cbn. exists v, l1, l2. rewrite app_nil_r in Hd. now split.
  - cbn [map fst min_from].
    assert (Hb : value_at d best = v).
    { unfold value_at. rewrite (get_nodup d best v Hn); [reflexivity|].
      rewrite Hd. apply in_or_app. left. apply in_or_app. right. now left. }
    assert (Hk : value_at d k = vk).
    { unfold value_at. rewrite (get_nodup d k vk Hn); [reflexivity|].
      rewrite Hd. apply in_or_app. right. now left. }
    rewrite Hb, Hk.
    destruct (Qltb vk v) eqn:E.
    + apply Qltb_lt in E.
      apply (IH (l1 ++ (best, v) :: l2)%list k vk []).
      * rewrite Hd. rewrite <- !app_assoc. cbn. reflexivity.
      * apply Forall_app. split.
        -- eapply Forall_impl; [|exact H1]. cbn. intros a Ha.
           now apply Qlt_trans with v.
        -- constructor; [exact E|].
           eapply Forall_impl; [|exact H2]. cbn. intros a Ha.
           now apply Qlt_le_trans with v.
      * constructor.
    + apply Qltb_ge in E.
      apply (IH l1 best v (l2 ++ [(k, vk)])%list).
      * rewrite Hd. rewrite <- !app_assoc. cbn. rewrite <- app_assoc.
        reflexivity.
      * exact H1.
      * apply Forall_app. split; [exact H2|]. now constructor.
Qed.

(** X3. On a dict, [_pick_target_key_from_features] returns the empty string
    when no value is a number; otherwise it returns the key of a numeric
    entry whose value is the least one, and of the first such entry when
    several share it. *)
Theorem pick_target_key_first_least (features : dict feature_value) :
  NoDup (map fst features) ->
  match numeric_feats features with
  | [] => _pick_target_key_from_features features = ""
  | _ =>
      exists v,
        first_least (numeric_feats features)
          (_pick_target_key_from_features features) v
  end.
Proof.
  intros Hn. apply numeric_feats_nodup in Hn.
  unfold _pick_target_key_from_features.
  destruct (numeric_feats features) as [|[k v] d] eqn:E; [reflexivity|].
  cbn [map fst].
  apply (@min_from_spec ((k, v) :: d) Hn d [] k v []); auto.
Qed.

Lemma pick_target_key_first_least_witness :
  NoDup (map fst tied_features) /\
  exists v, first_least (numeric_feats tied_features)
              (_pick_target_key_from_features tied_features) v.
Proof.
  assert (Hn : NoDup (map fst tied_features)).
  { repeat (constructor; [cbn; intuition discriminate|]). constructor. }
  split; [exact Hn|].
  exact (pick_target_key_first_least tied_features Hn).
Defined.






End VoicyFacts.

(** ** The comments under the graphs *)

Module GraphFacts.

Import Voicy Float GraphComments.
Local Open Scope string_scope.

Lemma insert_desc_in (x y : string * Q) (s : list (string * Q)) :
  List.In y (insert_desc x s) <-> y = x \/ List.In y s.
Proof.
  induction s as [|z s IH]; cbn.
  - intuition.
  - destruct (Qltb (snd x) (snd z)); cbn; rewrite ?IH; intuition.
Qed.

Lemma sorted_desc_in (y : string * Q) (l : list (string * Q)) :
  List.In y (sorted_desc l) <-> List.In y l.
Proof.
  induction l as [|x l IH]; cbn; [reflexivity|].
  rewrite insert_desc_in, IH. intuition.
Qed.

Lemma sorted_desc_length (l : list (string * Q)) :
  List.length (sorted_desc l) = List.length l.
Proof.
  assert (Hi : forall x s,
             List.length (insert_desc x s) = S (List.length s)).
  { intros x s. induction s as [|z s IHs]; cbn; [reflexivity|].
    destruct (Qltb (snd x) (snd z)); cbn; [now rewrite IHs|reflexivity]. }
  induction l as [|x l IH]; [reflexivity|].
  change (sorted_desc (x :: l)) with (insert_desc x (sorted_desc l)).
  rewrite Hi, IH. reflexivity.
Qed.

Lemma insert_desc_end (x : string * Q) (s : list (string * Q)) :
  Forall (fun y => (snd x < snd y)%Q) s -> insert_desc x s = (s ++ [x])%list.
Proof.
  induction 1 as [|y s Hy _ IH]; cbn; [reflexivity|].
  apply Qltb_lt in Hy. now rewrite Hy, IH.
Qed.

Lemma insert_desc_last (x d : string * Q) (s : list (string * Q)) :
  s <> [] -> (snd (last s d) <= snd x)%Q ->
  last (insert_desc x s) d = last s d.
Proof.
  induction s as [|y s IH]; [easy|]. intros _ Hl.
  cbn [insert_desc]. destruct (Qltb (snd x) (snd y)) eqn:E.
  - destruct s as [|y2 s].
    + cbn in Hl. apply Qltb_lt in E. exfalso.
      apply (Qlt_not_le _ _ E Hl).
    + assert (Hne : insert_desc x (y2 :: s) <> []).
      { cbn. destruct (Qltb (snd x) (snd y2)); discriminate. }
      change (last (y :: y2 :: s) d) with (last (y2 :: s) d).
      rewrite <- IH; [|discriminate|exact Hl].
      destruct (insert_desc x (y2 :: s)); [easy|reflexivity].
  - reflexivity.
Qed.

Lemma strongest_spec (x : string * Q) (l : list (string * Q)) :
  exists k v,
    strongest (sorted_desc (x :: l)) = Some (k, v) /\
    first_greatest (x :: l) k v.
Proof.
  revert x. induction l as [|y l IH]; intros [kx vx].
  - exists kx, vx. split; [reflexivity|]. exists [], []. now repeat split.
  - destruct (IH y) as (k & v & Hs & (l1 & l2 & Hd & H1 & H2)).
    change (sorted_desc ((kx, vx) :: y :: l))
      with (insert_desc (kx, vx) (sorted_desc (y :: l))).
    destruct (sorted_desc (y :: l)) as [|z s]; [discriminate Hs|].
    cbn in Hs. inversion Hs; subst z. cbn [insert_desc snd].
    destruct (Qltb vx v) eqn:E.
    + exists k, v. split; [reflexivity|].
      exists ((kx, vx) :: l1), l2. rewrite Hd. repeat split; auto.
      constructor; [now apply Qltb_lt|exact H1].
    + apply Qltb_ge in E.
      exists kx, vx. split; [reflexivity|].
      exists [], (y :: l). repeat split; auto.
      rewrite Hd. apply Forall_app. split.
      * eapply Forall_impl; [|exact H1]. cbn. intros a Ha.
        apply Qlt_le_weak. now apply Qlt_le_trans with v.
      * constructor; [exact E|].
        eapply Forall_impl; [|exact H2]. cbn. intros a Ha.
        now apply Qle_trans with v.
Qed.

Lemma last_default {X} (s : list X) (d d' : X) :
  s <> [] -> last s d = last s d'.
Proof.
  induction s as [|a s IH]; [easy|]. intros _.
  destruct s as [|b s]; [reflexivity|].
  change (last (b :: s) d = last (b :: s) d'). now apply IH.
Qed.

Lemma last_spec (x d : string * Q) (l : list (string * Q)) :
  exists k v,
    last (sorted_desc (x :: l)) d = (k, v) /\ last_least (x :: l) k v.
Proof.
  revert x. induction l as [|y l IH]; intros [kx vx].
  - exists kx, vx. split; [reflexivity|]. exists [], []. now repeat split.
  - destruct (IH y) as (k & v & Hs & (l1 & l2 & Hd & H1 & H2)).
    change (sorted_desc ((kx, vx) :: y :: l))
      with (insert_desc (kx, vx) (sorted_desc (y :: l))).
    assert (Hne : sorted_desc (y :: l) <> []).
    { intros E. apply (f_equal (@List.length _)) in E.
      rewrite sorted_desc_length in E. discriminate E. }
    destruct (Qltb vx v) eqn:E.
    + apply Qltb_lt in E.
      assert (Hall : Forall (fun a => (vx < snd a)%Q) (y :: l)).
      { rewrite Hd. apply Forall_app. split.
        - eapply Forall_impl; [|exact H1]. cbn. intros a Ha.
          now apply Qlt_le_trans with v.
        - constructor; [exact E|].
          eapply Forall_impl; [|exact H2]. cbn. intros a Ha.
          now apply Qlt_trans with v. }
      rewrite insert_desc_end.
      * rewrite last_last. exists kx, vx. split; [reflexivity|].
        exists [], (y :: l). repeat split; [constructor|exact Hall].
      * apply Forall_forall. intros a Ha.
        apply (proj1 (sorted_desc_in _ _)) in Ha.
        rewrite Forall_forall in Hall. cbn. now apply Hall.
    + apply Qltb_ge in E.
      rewrite insert_desc_last; [|exact Hne|rewrite Hs; exact E].
      exists k, v. split; [exact Hs|].
      exists ((kx, vx) :: l1), l2. rewrite Hd. repeat split; auto.
Qed.

Lemma weakest_spec (x y : string * Q) (l : list (string * Q)) :
  exists k v,
    weakest (sorted_desc (x :: y :: l)) = Some (k, v) /\
    last_least (x :: y :: l) k v.
Proof.
  pose proof (sorted_desc_length (x :: y :: l)) as Hlen.
  destruct (sorted_desc (x :: y :: l)) as [|a [|b s]] eqn:Es;
    try discriminate Hlen.
  destruct (last_spec x a (y :: l)) as (k & v & Hl & Hll).
  exists k, v. split; [|exact Hll].
  unfold weakest. now rewrite <- Es, Hl.
Qed.

(** X5. The radar comment ranks the features of the chart by value: it names
    as strongest the first entry with the greatest value and, when there are
    at least two entries, as weakest the last entry with the least value.
    With one entry only the strongest is named, and with none the comment is
    the line for a balanced voice. *)
Theorem radar_lines_name_extremes (features : dict feature_value) :
  match feats_scalar features with
  | [] => radar_lines features = [balanced_line]
  | [(k, _)] => radar_lines features = [strongest_line k]
  | feats =>
      exists k v k' v',
        first_greatest feats k v /\ last_least feats k' v' /\
        radar_lines features = [strongest_line k; weakest_line k']
  end.
Proof.
  unfold radar_lines.
  destruct (feats_scalar features) as [|[k1 v1] [|y l]]; try reflexivity.
  destruct (strongest_spec (k1, v1) (y :: l)) as (k & v & Hs & Hfg).
  destruct (weakest_spec (k1, v1) y l) as (k' & v' & Hw & Hll).
  exists k, v, k', v'. rewrite Hs, Hw. now repeat split.
Qed.

(** X6. The comment on the level is not monotone in the level: the text for
    a rather quiet voice is given below -25 dBFS and also between -15
    (excluded) and -12 dBFS (included), that is above the band from -25 to
    -15 dBFS that gets the text for a level that is just right.  A level
    that is not a number gets the text for a rather quiet voice too. *)
Theorem loud_comment_bands (d : R) :
  (loud_comment (Fin d) = loud_text <-> (-12 < d)%R) /\
  (loud_comment (Fin d) = just_right_text <-> (-25 <= d <= -15)%R) /\
  (loud_comment (Fin d) = quiet_text <->
     (d < -25 \/ -15 < d <= -12)%R) /\
  loud_comment NaN = quiet_text.
Proof.
  assert (D1 : loud_text <> just_right_text) by discriminate.
  assert (D2 : loud_text <> quiet_text) by discriminate.
  assert (D3 : just_right_text <> quiet_text) by discriminate.
  unfold loud_comment, fgt, fle, flt, Rltb.
  destruct (Rlt_dec (-12) d) as [H1|H1]; cbn [negb andb];
    [|destruct (Rlt_dec d (-25)) as [H2|H2]; cbn [negb andb];
      [|destruct (Rlt_dec (-15) d) as [H3|H3]; cbn [negb andb]]];
    repeat split; intros; try reflexivity; try lra; try congruence;
    try (exfalso; lra); try (left; lra); try (right; lra).
Qed.

End GraphFacts.

(** ** Saving and plotting the recording *)

Module SavingFacts.

Import Float Signal Saving.

Lemma every_length {A} (step : nat) (l : list A) :
  (0 < step)%nat ->
  forall k, (k < step)%nat ->
    List.length (every step k l) =
      if (List.length l <=? k)%nat then 0%nat
      else ((List.length l - k - 1) / step + 1)%nat.
Proof.
  intros Hs. induction l as [|a l IH]; intros k Hk; [reflexivity|].
  cbn [every List.length]. destruct k as [|k].
  - cbn [Nat.leb List.length]. rewrite IH by lia.
    replace (S (List.length l) - 0 - 1)%nat with (List.length l) by lia.
    destruct (List.length l <=? step - 1)%nat eqn:E.
    + apply Nat.leb_le in E. rewrite Nat.div_small by lia. reflexivity.
    + apply Nat.leb_gt in E.
      replace (List.length l - (step - 1) - 1)%nat
        with (List.length l - step)%nat by lia.
      replace (List.length l) with ((List.length l - step) + 1 * step)%nat
        at 2 by lia.
      rewrite Nat.div_add by lia. lia.
  - rewrite IH by lia. cbn [Nat.leb].
    replace (S (List.length l) - S k - 1)%nat
      with (List.length l - k - 1)%nat by lia.
    reflexivity.
Qed.

Lemma every_one {A} (l : list A) : every 1 0 l = l.
Proof. induction l as [|a l IH]; cbn; [reflexivity|now rewrite IH]. Qed.

Lemma every_head {A} (step : nat) (l : list A) :
  hd_error (every step 0 l) = hd_error l.
Proof. destruct l; reflexivity. Qed.

(** The number of samples kept by a stride of [n / m] when [n > m]. *)
Lemma stride_count (n m : nat) :
  (0 < m)%nat -> (m < n)%nat ->
  (m <= (n - 1) / (n / m) + 1 <= 2 * m - 1)%nat.
Proof.
  intros Hm Hn.
  pose proof (Nat.div_mod_eq n m) as Hd.
  pose proof (Nat.mod_upper_bound n m ltac:(lia)) as Hr.
  assert (Hs : (1 <= n / m)%nat).
  { apply Nat.div_le_lower_bound; lia. }
  set (s := (n / m)%nat) in *. set (r := (n mod m)%nat) in *.
  split.
  - assert ((m - 1) <= (n - 1) / s)%nat; [|lia].
    apply Nat.div_le_lower_bound; [lia|]. nia.
  - assert ((n - 1) / s < 2 * m - 1)%nat; [|lia].
    apply Nat.Div0.div_lt_upper_bound. nia.
Qed.

(** X7. [make_wave_plot] draws a recording of at most [max_points] samples
    in full.  A longer one is thinned by the stride [len // max_points],
    starting with the first sample; the number of points drawn is then at
    least [max_points] and at most [2 * max_points - 1], and a recording
    shorter than [2 * max_points] is still drawn in full. *)
Theorem wave_plot_points (y : list float) (max_points : Z) :
  (0 < max_points)%Z -> y <> [] ->
  let len := Z.of_nat (List.length y) in
  exists ys,
    make_wave_plot (Some y) max_points = inr (seq 0 (List.length ys), ys) /\
    hd_error ys = hd_error y /\
    (len < 2 * max_points -> ys = y)%Z /\
    (max_points < len ->
     max_points <= Z.of_nat (List.length ys) <= 2 * max_points - 1)%Z.
Proof.
  intros Hm Hy len. unfold make_wave_plot.
  destruct y as [|a y']; [easy|]. set (y := a :: y') in *.
  fold len.
  destruct (max_points <? len)%Z eqn:E.
  - apply Z.ltb_lt in E.
    destruct (max_points =? 0)%Z eqn:E0; [apply Z.eqb_eq in E0; lia|].
    set (n := List.length y) in *. set (m := Z.to_nat max_points).
    assert (Hmm : max_points = Z.of_nat m) by (unfold m; lia).
    assert (Hlt : (m < n)%nat) by (unfold len in E; lia).
    assert (Hs : (1 <= n / m)%nat).
    { apply Nat.div_le_lower_bound; lia. }
    assert (Hstep : Z.to_nat (Z.max 1 (len / max_points)) = (n / m)%nat).
    { unfold len. rewrite Hmm, <- Nat2Z.inj_div. lia. }
    rewrite Hstep. cbn [Py.bind Py.ret].
    exists (every (n / m) 0 y). split; [reflexivity|].
    split; [apply every_head|]. split.
    + intros H2. assert (Hone : (n / m = 1)%nat).
      { apply Nat.le_antisymm; [|exact Hs].
        assert (n / m < 2)%nat; [|lia].
        apply Nat.Div0.div_lt_upper_bound. unfold len in H2. lia. }
      rewrite Hone. apply every_one.
    + intros _. rewrite every_length by lia. fold n.
      destruct (n <=? 0)%nat eqn:En; [apply Nat.leb_le in En; lia|].
      replace (n - 0 - 1)%nat with (n - 1)%nat by lia.
      pose proof (@stride_count n m ltac:(lia) Hlt). lia.
  - apply Z.ltb_ge in E. cbn [Py.bind Py.ret].
    exists y. repeat split; intros; try reflexivity; lia.
Qed.

Lemma wave_plot_points_witness :
  exists ys,
    make_wave_plot (Some [Fin 0; Fin 1; Fin 0; Fin 1; Fin 0]) 2
      = inr (seq 0 (List.length ys), ys) /\
    hd_error ys = Some (Fin 0) /\
    (5 < 2 * 2 -> ys = [Fin 0; Fin 1; Fin 0; Fin 1; Fin 0])%Z /\
    (2 < 5 -> 2 <= Z.of_nat (List.length ys) <= 2 * 2 - 1)%Z.
Proof.
  apply (@wave_plot_points [Fin 0; Fin 1; Fin 0; Fin 1; Fin 0] 2);
    [lia|discriminate].
Defined.

Local Open Scope R_scope.









End SavingFacts.

(** ** The placeholder extractor and the analysis *)

Module ExtractorFacts.

Import SpeechAnalyzer Voicy Extractor.
Local Open Scope string_scope.

Lemma evaluate_five (features : dict Q) (s p v c m : Q) :
  get features k_speed = Some s ->
  get features k_intonation = Some p ->
  get features k_loudness = Some v ->
  get features k_clarity = Some c ->
  get features k_pause = Some m ->
  exists cs ci cl cc cp,
    _evaluate_speech_features voice_metrics features =
      inr [(k_speed, cs); (k_intonation, ci); (k_loudness, cl);
           (k_clarity, cc); (k_pause, cp)] /\
    Forall (renderable voice_metrics)
      [(k_speed, cs); (k_intonation, ci); (k_loudness, cl);
       (k_clarity, cc); (k_pause, cp)].
Proof.
  intros Hs Hi Hl Hc Hp.
  unfold _evaluate_speech_features.
  rewrite (TraitFacts.getitem_some _ _ Hs), (TraitFacts.getitem_some _ _ Hi),
          (TraitFacts.getitem_some _ _ Hl), (TraitFacts.getitem_some _ _ Hc),
          (TraitFacts.getitem_some _ _ Hp).
  cbn [Py.bind].
  change (range_of voice_metrics k_speed) with (@inr exc _ (120, 150)%Q).
  change (range_of voice_metrics k_intonation) with (@inr exc _ (0.5, 1.5)%Q).
  change (range_of voice_metrics k_loudness) with (@inr exc _ (60, 75)%Q).
  change (range_of voice_metrics k_clarity) with (@inr exc _ (0.7, 1.0)%Q).
  change (range_of voice_metrics k_pause) with (@inr exc _ (0.5, 2.0)%Q).
  cbn [Py.bind Py.ret fst snd app].
  do 5 eexists. split; [reflexivity|].
  unfold Qgtb.
  repeat (apply Forall_cons;
          [repeat match goal with
                  | |- context [if ?b then _ else _] => destruct b
                  end;
           unfold renderable; cbn; eexists; eexists; split; reflexivity|]).
  apply Forall_nil.
Qed.

Lemma advice_count (cs ci cl cc cp : string) :
  let ev := [(k_speed, cs); (k_intonation, ci); (k_loudness, cl);
             (k_clarity, cc); (k_pause, cp)] in
  List.length (advice_for ev) =
    S (List.length (filter (fun it => negb (is_good it)) ev)) /\
  last (advice_for ev) "" = closing_advice.
Proof.
  cbv zeta. unfold advice_for, needs_advice.
  set (ev := [(k_speed, cs); (k_intonation, ci); (k_loudness, cl);
              (k_clarity, cc); (k_pause, cp)]).
  change (get ev k_speed) with (Some cs).
  change (get ev k_intonation) with (Some ci).
  change (get ev k_loudness) with (Some cl).
  change (get ev k_clarity) with (Some cc).
  change (get ev k_pause) with (Some cp).
  unfold ev. cbn [filter]. unfold is_good. cbn [snd].
  destruct (String.eqb cs "good"), (String.eqb ci "good"),
           (String.eqb cl "good"), (String.eqb cc "good"),
           (String.eqb cp "good"); split; reflexivity.
Qed.

(** X9. For every feature mapping that holds the five traits, the evaluation
    followed by the feedback composer returns: the five traits are evaluated
    in their fixed order, each gives one line, among the strengths or among
    the improvements, and the advice consists of one line for each
    improvement followed by the closing encouragement, so that it is never
    empty. *)
Theorem evaluation_feedback_shape (features : dict Q) (s p v c m : Q) :
  get features k_speed = Some s ->
  get features k_intonation = Some p ->
  get features k_loudness = Some v ->
  get features k_clarity = Some c ->
  get features k_pause = Some m ->
  exists ev fb,
    _evaluate_speech_features voice_metrics features = inr ev /\
    _generate_feedback voice_metrics ev = inr fb /\
    map fst ev = [k_speed; k_intonation; k_loudness; k_clarity; k_pause] /\
    (List.length (strengths fb) + List.length (improvements fb) = 5)%nat /\
    List.length (advice fb) = S (List.length (improvements fb)) /\
    last (advice fb) "" = closing_advice.
Proof.
  intros Hs Hi Hl Hc Hp.
  destruct (evaluate_five _ Hs Hi Hl Hc Hp)
    as (cs & ci & cl & cc & cp & Hev & Hr).
  set (ev := [(k_speed, cs); (k_intonation, ci); (k_loudness, cl);
              (k_clarity, cc); (k_pause, cp)]) in *.
  destruct (@TraitFacts.generate_feedback_spec voice_metrics ev
              ltac:(discriminate) Hr) as [_ Hfb].
  destruct (advice_count cs ci cl cc cp) as [Ha Hl'].
  eexists. eexists. split; [exact Hev|]. split; [exact Hfb|].
  cbn [strengths improvements advice].
  split; [reflexivity|]. rewrite !length_map.
  split; [apply (TraitFacts.filter_split_length is_good ev)|].
  split; [exact Ha|exact Hl'].
Qed.

Lemma evaluation_feedback_shape_witness :
  exists ev fb,
    _evaluate_speech_features voice_metrics low_end_features = inr ev /\
    _generate_feedback voice_metrics ev = inr fb /\
    map fst ev = [k_speed; k_intonation; k_loudness; k_clarity; k_pause] /\
    (List.length (strengths fb) + List.length (improvements fb) = 5)%nat /\
    List.length (advice fb) = S (List.length (improvements fb)) /\
    last (advice fb) "" = closing_advice.
Proof.
  exact (@evaluation_feedback_shape low_end_features 120 0.5 60 0.7 0.5
           eq_refl eq_refl eq_refl eq_refl eq_refl).
Defined.

Lemma evaluation_feedback_parts (s p v c m d : Q) (pc vc : list Q) :
  let f := [ (k_speed, Number s); (k_intonation, Number p);
             (k_loudness, Number v); (k_clarity, Number c);
             (k_pause, Number m); (k_duration, Number d);
             (k_pitch_curve, Series pc); (k_volume_curve, Series vc) ] in
  exists ev fb,
    _evaluate_speech_features voice_metrics (numeric_feats f) = inr ev /\
    _generate_feedback voice_metrics ev = inr fb /\
    map fst ev = [k_speed; k_intonation; k_loudness; k_clarity; k_pause] /\
    advice fb <> [].
Proof.
  cbv zeta.
  destruct (@evaluate_five
              [ (k_speed, s); (k_intonation, p); (k_loudness, v);
                (k_clarity, c); (k_pause, m); (k_duration, d) ] s p v c m
              eq_refl eq_refl eq_refl eq_refl eq_refl)
    as (cs & ci & cl & cc & cp & Hev & Hr).
  set (ev := [(k_speed, cs); (k_intonation, ci); (k_loudness, cl);
              (k_clarity, cc); (k_pause, cp)]) in *.
  destruct (@TraitFacts.generate_feedback_spec voice_metrics ev
              ltac:(discriminate) Hr) as [_ Hfb].
  destruct (advice_count cs ci cl cc cp) as [Ha _].
  exists ev. eexists. split; [exact Hev|]. split; [exact Hfb|].
  split; [reflexivity|]. cbn [advice].
  intros E. fold ev in Ha. rewrite E in Ha. discriminate Ha.
Qed.

Lemma split_in_all {X} (d l1 l2 : list X) (x : X) (A B C : X -> Prop) :
  d = (l1 ++ x :: l2)%list -> Forall A l1 -> Forall B l2 ->
  (forall y, A y -> C y) -> (forall y, B y -> C y) -> C x ->
  List.In x d /\ Forall C d.
Proof.
  intros -> H1 H2 HA HB Hx. split.
  - apply in_or_app. right. now left.
  - apply Forall_app. split.
    + eapply Forall_impl; [|exact H1]. exact HA.
    + constructor; [exact Hx|]. eapply Forall_impl; [|exact H2]. exact HB.
Qed.

Lemma first_greatest_all (d : dict Q) (k : string) (v : Q) :
  GraphComments.first_greatest d k v ->
  List.In (k, v) d /\ Forall (fun kv => (snd kv <= v)%Q) d.
Proof.
  intros (l1 & l2 & Hd & H1 & H2).
  eapply split_in_all; eauto; cbn; intros; lra.
Qed.

Lemma last_least_all (d : dict Q) (k : string) (v : Q) :
  GraphComments.last_least d k v ->
  List.In (k, v) d /\ Forall (fun kv => (v <= snd kv)%Q) d.
Proof.
  intros (l1 & l2 & Hd & H1 & H2).
  eapply split_in_all; eauto; cbn; intros; lra.
Qed.

Lemma first_least_all (d : dict Q) (k : string) (v : Q) :
  first_least d k v ->
  List.In (k, v) d /\ Forall (fun kv => (v <= snd kv)%Q) d.
Proof.
  intros (l1 & l2 & Hd & H1 & H2).
  eapply split_in_all; eauto; cbn; intros; lra.
Qed.

Section Draws.

Variable random : nat -> Q.
Variable pick : nat.
Hypothesis random_unit : forall k, (0 <= random k < 1)%Q.

Lemma uniform_range (k : nat) (a b : Q) :
  (a <= b)%Q -> (a <= uniform random k a b <= b)%Q.
Proof.
  intros Hab. unfold uniform. destruct (random_unit k) as [H0 H1].
  split; nra.
Qed.

Lemma selected_pattern_ranges :
  exists s p v c m,
    nth (pick mod List.length (patterns random)) (patterns random) [] =
      [ (k_speed, s); (k_intonation, p); (k_loudness, v); (k_clarity, c);
        (k_pause, m) ] /\
    (100 <= s <= 180 /\ 0.3 <= p <= 1.8 /\ 50 <= v <= 85 /\
     0.5 <= c <= 1 /\ 0.2 <= m <= 2.5)%Q.
Proof.
  change (List.length (patterns random)) with 5%nat.
  pose proof (Nat.mod_upper_bound pick 5 ltac:(discriminate)) as Hlt.
  unfold patterns.
  destruct (pick mod 5)%nat as [|[|[|[|[|n]]]]]; [| | | | |lia];
    cbn [nth]; do 5 eexists; (split; [reflexivity|]);
    repeat match goal with
           | |- context [uniform random ?k ?a ?b] =>
               let H := fresh "U" in
               assert (H := @uniform_range k a b ltac:(lra));
               generalize dependent (uniform random k a b); intros
           end; lra.
Qed.

Lemma pattern_lookup (s p v c m : Q) :
  let pattern := [ (k_speed, s); (k_intonation, p); (k_loudness, v);
                   (k_clarity, c); (k_pause, m) ] in
  getitem pattern k_intonation = inr p /\ getitem pattern k_loudness = inr v.
Proof. split; reflexivity. Qed.

Lemma curve_range (f : nat -> Q) (lo hi : Q) :
  (forall j, lo <= f j <= hi)%Q ->
  List.length (map f (seq 0 50)) = 50%nat /\
  Forall (fun y => lo <= y <= hi)%Q (map f (seq 0 50)).
Proof.
  intros Hf. split; [now rewrite length_map, length_seq|].
  apply Forall_forall. intros y Hin. apply in_map_iff in Hin.
  destruct Hin as (j & <- & _). apply Hf.
Qed.

Lemma extract_spec :
  exists f, _extract_dummy_features random pick = inr f /\ extracted f.
Proof.
  unfold _extract_dummy_features. cbv zeta.
  destruct selected_pattern_ranges as (s & p & v & c & m & Hsel & R).
  rewrite Hsel.
  destruct (pattern_lookup s p v c m) as [Hp Hv]. cbv zeta in Hp, Hv.
  rewrite Hp. cbn [Py.bind].
  pose proof (@uniform_range 25 30 120 ltac:(lra)) as Hd.
  pose proof (@uniform_range 26 100 200 ltac:(lra)) as Hb.
  assert (Hpc : exists pc k,
    (if Qltb p 0.6
     then (map (fun j => uniform random 26 100 200
                         + uniform random (27 + j) (-20) 20)%Q (seq 0 50),
           77%nat)
     else (map (fun j => uniform random (26 + j) 80 250) (seq 0 50), 76%nat))
    = (pc, k) /\
    List.length pc = 50%nat /\ Forall (fun y => 80 <= y <= 250)%Q pc).
  { destruct (Qltb p 0.6); eexists; eexists; (split; [reflexivity|]);
      apply curve_range; intros j.
    - pose proof (@uniform_range (27 + j) (-20) 20 ltac:(lra)). lra.
    - apply uniform_range. lra. }
  destruct Hpc as (pc & k & -> & Hpl & Hpr).
  rewrite Hv. cbn [Py.bind Py.ret].
  pose proof (@uniform_range k 50 60 ltac:(lra)) as Hbv.
  assert (Hvc : exists vc,
    (if Qltb v 65
     then map (fun j => uniform random k 50 60
                        + uniform random (k + 1 + j) (-10) 10)%Q (seq 0 50)
     else map (fun j => v + uniform random (k + j) (-15) 15)%Q (seq 0 50))
    = vc /\
    List.length vc = 50%nat /\ Forall (fun y => 40 <= y <= 100)%Q vc).
  { destruct (Qltb v 65) eqn:E; eexists; (split; [reflexivity|]);
      apply curve_range; intros j.
    - pose proof (@uniform_range (k + 1 + j) (-10) 10 ltac:(lra)). lra.
    - apply Qltb_ge in E.
      pose proof (@uniform_range (k + j) (-15) 15 ltac:(lra)). lra. }
  destruct Hvc as (vc & -> & Hvl & Hvr).
  eexists. split; [reflexivity|].
  exists s, p, v, c, m, (uniform random 25 30 120), pc, vc.
  split; [reflexivity|]. repeat split; try easy; lra.
Qed.

Lemma visualization_of (s p v c m d : Q) (pc vc : list Q) :
  _generate_visualization_data
    [ (k_speed, Number s); (k_intonation, Number p); (k_loudness, Number v);
      (k_clarity, Number c); (k_pause, Number m); (k_duration, Number d);
      (k_pitch_curve, Series pc); (k_volume_curve, Series vc) ] =
  inr {| waveform := (seq 0 (List.length vc), vc);
         pitch := (seq 0 (List.length pc), pc);
         metrics :=
           ([k_speed; k_intonation; k_loudness; k_clarity; k_pause],
            [s / 180; p / 2; v / 100; c; m / 3]%Q) |}.
Proof. reflexivity. Qed.

(** X10. Whatever numbers the generator draws, [analyze_speech] returns.  Its
    features are the five traits, the duration and two curves of fifty
    points, each within the ranges of the patterns; the five values of the
    radar chart lie between 0 and 1; the waveform trace is the volume curve,
    fifty values between 40 and 100 on the positions 0 to 49; and the advice
    is not empty. *)
Theorem analyze_speech_returns :
  exists a,
    analyze_speech random pick voice_metrics = inr a /\
    extracted (features a) /\
    map fst (evaluation a) =
      [k_speed; k_intonation; k_loudness; k_clarity; k_pause] /\
    advice (feedback_data a) <> [] /\
    fst (metrics (visualization_data a)) =
      [k_speed; k_intonation; k_loudness; k_clarity; k_pause] /\
    List.length (snd (metrics (visualization_data a))) = 5%nat /\
    Forall (fun x => 0 <= x <= 1)%Q (snd (metrics (visualization_data a))) /\
    fst (waveform (visualization_data a)) = seq 0 50 /\
    List.length (snd (waveform (visualization_data a))) = 50%nat /\
    Forall (fun y => 40 <= y <= 100)%Q (snd (waveform (visualization_data a))).
Proof.
  unfold analyze_speech.
  destruct extract_spec as (f & Hf & Hx). rewrite Hf. cbn [Py.bind].
  pose proof Hx as Hx'.
  destruct Hx' as (s & p & v & c & m & d & pc & vc & -> & R & Hpl & Hvl
                   & Hpr & Hvr).
  destruct (@evaluation_feedback_parts s p v c m d pc vc)
    as (ev & fb & Hev & Hfb & Hk & Ha).
  rewrite Hev. cbn [Py.bind]. rewrite visualization_of. cbn [Py.bind].
  rewrite Hfb. cbn [Py.bind Py.ret].
  eexists. split; [reflexivity|].
  cbn [features evaluation feedback_data visualization_data metrics waveform
       fst snd].
  split; [exact Hx|]. split; [exact Hk|]. split; [exact Ha|].
  split; [reflexivity|]. split; [reflexivity|]. split.
  - assert (Hu : forall x n : Q, (0 < n -> 0 <= x <= n -> 0 <= x / n <= 1)%Q).
    { intros x n Hn [H0 H1]. split.
      - apply Qle_shift_div_l; [exact Hn|lra].
      - apply Qle_shift_div_r; [exact Hn|lra]. }
    repeat constructor; try (apply Hu; lra); lra.
  - rewrite Hvl. repeat split; auto.
Qed.

(** X11. The comments rank the raw values of the features, not the values of
    the radar chart.  Whatever numbers the generator draws, the radar comment
    therefore names the speed as the strongest feature, and the weakest
    feature it names, like the feature the episode is chosen for, is the
    intonation, the clarity or the pauses, never the speed or the
    loudness. *)
Theorem raw_values_rank_speed_first :
  exists f k,
    _extract_dummy_features random pick = inr f /\
    GraphComments.radar_lines f =
      [GraphComments.strongest_line k_speed; GraphComments.weakest_line k] /\
    List.In k [k_intonation; k_clarity; k_pause] /\
    List.In (_pick_target_key_from_features f)
      [k_intonation; k_clarity; k_pause].
Proof.
  destruct extract_spec as (f & Hf & Hx).
  destruct Hx as (s & p & v & c & m & d & pc & vc & -> & R & _).
  set (f := [ (k_speed, Number s); (k_intonation, Number p);
              (k_loudness, Number v); (k_clarity, Number c);
              (k_pause, Number m); (k_duration, Number d);
              (k_pitch_curve, Series pc); (k_volume_curve, Series vc) ]) in *.
  destruct (GraphFacts.strongest_spec (k_speed, s)
              [(k_intonation, p); (k_loudness, v); (k_clarity, c);
               (k_pause, m)]) as (k1 & v1 & Hs & Hfg).
  destruct (GraphFacts.weakest_spec (k_speed, s) (k_intonation, p)
              [(k_loudness, v); (k_clarity, c); (k_pause, m)])
    as (k2 & v2 & Hw & Hll).
  apply first_greatest_all in Hfg. destruct Hfg as [Hin1 Hall1].
  apply last_least_all in Hll. destruct Hll as [Hin2 Hall2].
  repeat rewrite Forall_cons_iff in Hall1.
  repeat rewrite Forall_cons_iff in Hall2.
  cbn [snd] in Hall1, Hall2.
  assert (Hk1 : k1 = k_speed).
  { cbn [List.In] in Hin1.
    destruct Hin1 as [E|[E|[E|[E|[E|[]]]]]]; inversion E; subst;
      try reflexivity; exfalso; lra. }
  assert (Hk2 : List.In k2 [k_intonation; k_clarity; k_pause]).
  { cbn [List.In] in Hin2.
    destruct Hin2 as [E|[E|[E|[E|[E|[]]]]]]; inversion E; subst; cbn; auto;
      exfalso; lra. }
  assert (Hn : NoDup (map fst (numeric_feats f))).
  { cbn. repeat (constructor; [cbn; intuition discriminate|]). constructor. }
  destruct (@VoicyFacts.min_from_spec (numeric_feats f) Hn
              [(k_intonation, p); (k_loudness, v); (k_clarity, c);
               (k_pause, m); (k_duration, d)] [] k_speed s [])
    as (v3 & Hfl); [reflexivity|constructor|constructor|].
  set (t := min_from _ _ _) in Hfl.
  assert (Ht : _pick_target_key_from_features f = t) by reflexivity.
  clearbody t.
  apply first_least_all in Hfl. destruct Hfl as [Hin3 Hall3].
  change (numeric_feats f)
    with [(k_speed, s); (k_intonation, p); (k_loudness, v); (k_clarity, c);
          (k_pause, m); (k_duration, d)] in Hin3, Hall3.
  repeat rewrite Forall_cons_iff in Hall3. cbn [snd] in Hall3.
  exists f, k2. split; [exact Hf|]. split.
  - unfold GraphComments.radar_lines.
    change (GraphComments.feats_scalar f)
      with [(k_speed, s); (k_intonation, p); (k_loudness, v);
            (k_clarity, c); (k_pause, m)].
    rewrite Hs, Hw. cbn [fst app]. now rewrite Hk1.
  - split; [exact Hk2|]. rewrite Ht.
    cbn [List.In] in Hin3.
    destruct Hin3 as [E|[E|[E|[E|[E|[E|[]]]]]]];
      apply pair_equal_spec in E; destruct E as [E1 E2]; rewrite <- E1;
      rewrite <- E2 in Hall3; cbn [List.In]; auto; exfalso; lra.
Qed.

End Draws.

Lemma analyze_speech_returns_witness :
  (forall k, 0 <= steady k < 1)%Q /\
  exists a,
    analyze_speech steady 3 voice_metrics = inr a /\
    extracted (features a) /\
    map fst (evaluation a) =
      [k_speed; k_intonation; k_loudness; k_clarity; k_pause] /\
    advice (feedback_data a) <> [] /\
    fst (metrics (visualization_data a)) =
      [k_speed; k_intonation; k_loudness; k_clarity; k_pause] /\
    List.length (snd (metrics (visualization_data a))) = 5%nat /\
    Forall (fun x => 0 <= x <= 1)%Q (snd (metrics (visualization_data a))) /\
    fst (waveform (visualization_data a)) = seq 0 50 /\
    List.length (snd (waveform (visualization_data a))) = 50%nat /\
    Forall (fun y => 40 <= y <= 100)%Q (snd (waveform (visualization_data a))).
Proof.
  assert (H : forall k, (0 <= steady k < 1)%Q).
  { intros k. unfold steady. split; [discriminate|reflexivity]. }
  split; [exact H|]. exact (@analyze_speech_returns steady 3 H).
Defined.

Lemma raw_values_rank_speed_first_witness :
  (forall k, 0 <= steady k < 1)%Q /\
  exists f k,
    _extract_dummy_features steady 0 = inr f /\
    GraphComments.radar_lines f =
      [GraphComments.strongest_line k_speed; GraphComments.weakest_line k] /\
    List.In k [k_intonation; k_clarity; k_pause] /\
    List.In (_pick_target_key_from_features f)
      [k_intonation; k_clarity; k_pause].
Proof.
  assert (H : forall k, (0 <= steady k < 1)%Q).
  { intros k. unfold steady. split; [discriminate|reflexivity]. }
  split; [exact H|]. exact (@raw_values_rank_speed_first steady 0 H).
Defined.

End ExtractorFacts.

(** ** Levels: the RMS never exceeds the peak *)

Module LevelFacts.

Import Float Spectral.
Local Open Scope R_scope.





End LevelFacts.

(** ** The sample analysis plug-in *)

Module PluginFacts.

Import Float SpeechAnalyzer Spectral Plugin.
Local Open Scope R_scope.




End PluginFacts.

(** ** The levels of the analysis path *)

Module MetricFacts.

Import Float Signal Spectral.
Local Open Scope R_scope.






End MetricFacts.

(** ** Ranges of the thresholds and of the band energies *)

Module RangeFacts.

Import Float Signal Spectral.
Local Open Scope R_scope.

(** X15. In automatic mode the silence threshold always lies between 0.01
    and 0.08, whatever the samples (also NaN or infinite ones), and the clip
    level is 0.98; when nothing can be probed (no sample, or a sample rate
    below 2) the silence threshold is 0.015, and when the probed samples
    contain a NaN it is 0.08.  In manual mode the two slider values are used
    as they are. *)
Theorem thresholds_clamped (x : list float) (sr : Z) (u1 u2 : float) :
  let probe_len := Z.min (Z.of_nat (List.length x)) (Z.quot sr 2) in
  (exists t,
     thresholds x sr true u1 u2 = (Fin t, Fin (98 / 100)) /\
     1 / 100 <= t <= 8 / 100 /\
     ((probe_len <= 0)%Z -> t = 15 / 1000) /\
     ((0 < probe_len)%Z ->
      existsb is_nan (firstn (Z.to_nat probe_len) x) = true ->
      t = 8 / 100)) /\
  thresholds x sr false u1 u2 = (u1, u2).
Proof.
  cbv zeta. split; [|reflexivity].
  destruct (SignalFacts.thresholds_auto x sr u1 u2) as (t & Ht & Hr).
  exists t. split; [exact Ht|]. split; [exact Hr|].
  unfold thresholds in Ht.
  assert (E0 : Rltb (1 / 100) (8 / 100) = true)
    by (apply FloatFacts.Rltb_true; lra).
  split.
  - intros Hp. apply Z.ltb_ge in Hp. rewrite Hp in Ht.
    cbn [fmul] in Ht. unfold py_max, py_min, fgt in Ht. cbn [flt] in Ht.
    assert (E1 : Rltb (5 / 1000 * 3) (8 / 100) = true)
      by (apply FloatFacts.Rltb_true; lra).
    assert (E2 : Rltb (1 / 100) (5 / 1000 * 3) = true)
      by (apply FloatFacts.Rltb_true; lra).
    rewrite E1 in Ht. cbn [flt] in Ht. rewrite E2 in Ht.
    assert (Et : t = 5 / 1000 * 3) by congruence. lra.
  - intros Hp Hnan. apply Z.ltb_lt in Hp. rewrite Hp in Ht.
    unfold np_median in Ht.
    assert (Hn : existsb is_nan
                   (map fabs
                      (firstn
                         (Z.to_nat
                            (Z.min (Z.of_nat (List.length x)) (Z.quot sr 2)))
                         x)) = true).
    { rewrite existsb_exists in *. destruct Hnan as (a & Hin & Ha).
      exists (fabs a). split; [now apply in_map|].
      destruct a; try discriminate Ha. reflexivity. }
    rewrite Hn in Ht. cbn [fmul] in Ht.
    unfold py_max, py_min, fgt in Ht. cbn [flt] in Ht. rewrite E0 in Ht.
    congruence.
Qed.

Lemma thresholds_clamped_witness :
  exists t,
    thresholds [] 16000 true (Fin (2 / 100)) (Fin (98 / 100))
      = (Fin t, Fin (98 / 100)) /\
    1 / 100 <= t <= 8 / 100 /\ t = 15 / 1000.
Proof.
  destruct (thresholds_clamped [] 16000 (Fin (2 / 100)) (Fin (98 / 100)))
    as [(t & H1 & H2 & H3 & _) _].
  exists t. split; [exact H1|]. split; [exact H2|].
  apply H3. discriminate.
Defined.



End RangeFacts.

(** ** The spectrogram plot *)

Module SpectrogramFacts.

Import Float Spectral Spectrogram.
Local Open Scope R_scope.





End SpectrogramFacts.
